(** * visvasity/daemon: self-monitoring, readiness reports and daemonization

    A shallow embedding of the three Go packages of the repository:

    - [initstatus]: the one-shot readiness endpoint ([Receiver]);
    - [monitor]: the restart loop with exponential backoff ([SelfMonitor]);
    - [daemon]: the detached launch ([Daemonize]).

    Blocking operations ([select], waiting for a child) are driven by an
    explicit stream of inputs: what the outside world does (a report is
    posted, a child exits, the outer context is cancelled, a timer fires) and
    when the main goroutine is scheduled.  Every function is executable. *)

From Stdlib Require Import ZArith String Ascii List Lia.
From stdpp Require Import base decidable option list gmap strings pretty.

Local Open Scope string_scope.
Local Open Scope Z_scope.

(** ** Go error values *)

Module errors.

(** Error values that occur in the program.  Values built by [errors.New]
    are pointers: two calls give two different values even for the same
    text, so the heap address [p] is part of the value.  [Foreign] stands
    for every error produced outside the three packages (exit statuses,
    I/O errors, causes supplied by the caller's own contexts). *)
Inductive error : Type :=
| Canceled                                 (* context.Canceled *)
| ErrInvalid                               (* os.ErrInvalid *)
| ErrClosed                                (* os.ErrClosed *)
| errorString (p : nat) (s : string)       (* errors.New(s), allocated at p *)
| wrapError (msg : string) (err : error)   (* fmt.Errorf("...%w", err) *)
| Foreign (id : nat) (text : string).

#[global] Instance error_eq_dec : EqDecision error.
Proof. solve_decision. Defined.

(** The [Error()] method. *)
Definition Error (e : error) : string :=
  match e with
  | Canceled => "context canceled"
  | ErrInvalid => "invalid argument"
  | ErrClosed => "file already closed"
  | errorString _ s => s
  | wrapError msg _ => msg
  | Foreign _ text => text
  end.

(** [errors.New]: allocates at the next free address. *)
Definition New (next : nat) (s : string) : error * nat :=
  (errorString next s, S next).

(** [fmt.Errorf(prefix + "%w", err)]. *)
Definition Errorf_w (prefix : string) (err : error) : error :=
  wrapError (prefix +:+ Error err) err.

(** [errors.Is] for non-nil arguments: identity, then the [Unwrap] chain. *)
Fixpoint Is (err target : error) : bool :=
  bool_decide (err = target) ||
  match err with
  | wrapError _ inner => Is inner target
  | _ => false
  end.

(** Every address used inside [e] is below [n]. *)
Fixpoint below (n : nat) (e : error) : Prop :=
  match e with
  | errorString p _ => (p < n)%nat
  | wrapError _ inner => below n inner
  | _ => True
  end.

End errors.
Export errors.

(** ** Cancellable contexts *)

Module context.

(** A context created by [context.WithCancelCause] is represented by what
    [context.Cause] reports for it: [None] while it is live, [Some c] once
    it is done.  The first cancellation wins. *)
Definition Context : Type := option error.

Definition Cause (c : Context) : option error := c.

Definition Done (c : Context) : bool :=
  match c with Some _ => true | None => false end.

(** [ctx.Err()] of a cancel context. *)
Definition Err (c : Context) : option error :=
  match c with Some _ => Some Canceled | None => None end.

(** A derived context starts out done when its parent already is. *)
Definition WithCancelCause (parent : Context) : Context := parent.

(** The [cancel(cause)] function: no effect on a done context, and a nil
    cause is recorded as [context.Canceled]. *)
Definition cancel (cause : option error) (c : Context) : Context :=
  match c with
  | Some _ => c
  | None => Some (default Canceled cause)
  end.

(** Cancelling a parent cancels each child that is still live, with the
    parent's cause. *)
Definition inherit (parent child : Context) : Context :=
  match child with
  | Some _ => child
  | None => parent
  end.

(** [select] over the [Done] channels of two contexts.  [None]: both are
    live and the goroutine stays blocked.  When both are done, Go chooses
    a ready case at random: [pick] is that choice. *)
Definition select2 (a b : Context) (pick : bool) : option error :=
  match a, b with
  | None, None => None
  | Some ea, None => Some ea
  | None, Some eb => Some eb
  | Some ea, Some eb => Some (if pick then ea else eb)
  end.

End context.
Export context.

(** ** Package initstatus *)

Module initstatus.

(** What [Receiver] closes over: the sentinel [errReady] and the context
    [rctx] that the HTTP handler, the waiter and the closer cancel. *)
Record endpoint : Type := Endpoint {
  errReady : error;
  rctx : Context
}.

Definition rcancel (cause : option error) (ep : endpoint) : endpoint :=
  {| errReady := errReady ep; rctx := cancel cause (rctx ep) |}.

(** [Receiver(ctx)]: [errors.New("ready")] allocates the sentinel, then
    [rctx] is derived from [ctx]. *)
Definition Receiver (next : nat) (ctx : Context) : endpoint * nat :=
  let '(ready, next') := New next "ready" in
  ({| errReady := ready; rctx := WithCancelCause ctx |}, next').

(** What [io.ReadAll(r.Body)] yields for an incoming request. *)
Inductive request : Type :=
| Body (data : string)
| ReadError (id : nat) (text : string).

(** The HTTP handler. *)
Definition handler (r : request) (next : nat) (ep : endpoint)
  : endpoint * nat :=
  match r with
  | ReadError id text => (rcancel (Some (Foreign id text)) ep, next)
  | Body data =>
      if negb (String.length data =? 0)%nat then
        let '(e, next') := New next data in
        (rcancel (Some e) ep, next')
      else (rcancel (Some (errReady ep)) ep, next)
  end.

(** The parent context passed to [Receiver] is cancelled with [cause]. *)
Definition parent_done (cause : error) (ep : endpoint) : endpoint :=
  {| errReady := errReady ep; rctx := inherit (Some cause) (rctx ep) |}.

(** The returned [receiver] function, called with the caller's context.
    [None]: still blocked in the [select].  Otherwise the endpoint after
    [rcancel(err)] and the returned error ([None] is nil). *)
Definition receiver (ep : endpoint) (ctx : Context) (pick : bool)
  : option (endpoint * option error) :=
  match select2 ctx (rctx ep) pick with
  | None => None
  | Some err =>
      let ep' := rcancel (Some err) ep in
      if negb (Is err (errReady ep)) then Some (ep', Some err)
      else Some (ep', None)
  end.

(** The returned closer. *)
Definition closer (ep : endpoint) : endpoint := rcancel (Some ErrClosed) ep.

(** Things that can happen to an endpoint between its creation and the
    moment the waiter looks at it. *)
Inductive op : Type :=
| Request (r : request)
| ParentDone (cause : error)
| Close.

Definition apply_op (o : op) (st : endpoint * nat) : endpoint * nat :=
  match o with
  | Request r => handler r (snd st) (fst st)
  | ParentDone cause => (parent_done cause (fst st), snd st)
  | Close => (closer (fst st), snd st)
  end.

Definition apply_ops (ops : list op) (st : endpoint * nat) : endpoint * nat :=
  foldl (fun s o => apply_op o s) st ops.

(** An empty-body request: the "ready" report. *)
Definition is_ready_report (o : op) : bool :=
  match o with
  | Request (Body data) => (String.length data =? 0)%nat
  | _ => false
  end.

(** What the HTTP client meets when [Report] runs.  [net_request] is the
    error of [http.NewRequestWithContext] ([None] is nil).  [net_do] is how
    [http.DefaultClient.Do] ends: with a response, which the handler has
    produced, or with an error, the request having reached the handler
    ([delivered]) or not. *)
Inductive do_result : Type :=
| Answered
| Failed (delivered : bool) (id : nat) (text : string).

Record network : Type := mkNetwork {
  net_request : option (nat * string);
  net_do : do_result
}.

(** The body [Report] posts: no reader for a nil status, else a reader of
    [status.Error()]. *)
Definition report_body (status : option error) : string :=
  match status with
  | Some e => Error e
  | None => ""
  end.

(** [Report(ctx, addrURL, status)]: the bodies that reached the handler of
    [addrURL], and the returned error. *)
Definition Report (net : network) (addrURL : string) (status : option error)
  : list string * option error :=
  if bool_decide (addrURL = "") then ([], None)
  else
    let r := report_body status in
    match net_request net with
    | Some (id, text) => ([], Some (Foreign id text))
    | None =>
        match net_do net with
        | Failed delivered id text =>
            (if delivered then [r] else [], Some (Foreign id text))
        | Answered => ([r], None)
        end
    end.

(** The requests that [Report] made reach the handler of an endpoint, their
    bodies read without error. *)
Definition deliver (bodies : list string) (st : endpoint * nat)
  : endpoint * nat :=
  apply_ops (map (fun b => Request (Body b)) bodies) st.

(** What a waiter whose own context stays live gets from an endpoint. *)
Definition outcome_of (ep : endpoint) (pick : bool) : option (option error) :=
  snd <$> receiver ep None pick.

End initstatus.

(** ** The process environment *)

Module os.

(** The environment block, in order; [Args] is [os.Args].  [Executable]
    and [ServerURL] give what [os.Executable()] and the [URL] of the
    test server return at the n-th use. *)
Record world : Type := World {
  Env : list (string * string);
  Args : list string;
  Executable : nat -> string + nat * string;
  ServerURL : nat -> string
}.

(** [os.Getenv]: the first entry with that name, the empty string when
    there is none (or when the name is empty). *)
Fixpoint lookup_env (env : list (string * string)) (key : string) : string :=
  match env with
  | [] => ""
  | (k, v) :: rest => if bool_decide (k = key) then v else lookup_env rest key
  end.

Definition Getenv (w : world) (key : string) : string :=
  if bool_decide (key = "") then "" else lookup_env (Env w) key.

(** [os.Environ()]: one "key=value" string per entry. *)
Definition Environ (w : world) : list string :=
  map (fun kv => fst kv +:+ "=" +:+ snd kv) (Env w).

End os.
Export os.

(** ** Package monitor *)

Module monitor.
Import initstatus.

(** [time.Duration] is an [int64] count of nanoseconds. *)
Definition Duration : Type := Z.
Definition Second : Duration := 1000000000.
Definition Minute : Duration := 60 * Second.

Definition int64_wrap (z : Z) : Z := (z + 2 ^ 63) mod 2 ^ 64 - 2 ^ 63.

(** [x << n] on [int64] with a signed count: a negative count panics
    ([None]), a count of 64 or more gives 0, otherwise the product wraps. *)
Definition shl64 (x n : Z) : option Z :=
  if n <? 0 then None
  else if 64 <=? n then Some 0
  else Some (int64_wrap (Z.shiftl x n)).

(** [os.Signal], by signal number; [os.Interrupt] is SIGINT. *)
Definition Signal : Type := Z.
Definition Interrupt : Signal := 2.

Record Options : Type := mkOptions {
  ShutdownSignal : option Signal;
  ShutdownTimeout : Duration;
  MinBackoffTimeout : Duration;
  MaxBackoffTimeout : Duration
}.

(** [new(Options)]. *)
Definition zeroOptions : Options := mkOptions None 0 0 0.

Definition setDefaults (v : Options) : Options :=
  let v := if bool_decide (ShutdownSignal v = None)
           then mkOptions (Some Interrupt) (ShutdownTimeout v)
                  (MinBackoffTimeout v) (MaxBackoffTimeout v)
           else v in
  let v := if ShutdownTimeout v =? 0
           then mkOptions (ShutdownSignal v) (10 * Second)
                  (MinBackoffTimeout v) (MaxBackoffTimeout v)
           else v in
  let v := if MinBackoffTimeout v =? 0
           then mkOptions (ShutdownSignal v) (ShutdownTimeout v)
                  Second (MaxBackoffTimeout v)
           else v in
  let v := if MaxBackoffTimeout v =? 0
           then mkOptions (ShutdownSignal v) (ShutdownTimeout v)
                  (MinBackoffTimeout v) Minute
           else v in
  v.

Definition check_message : string :=
  "max backoff timeout is smaller than min backoff timeout".

(** [check]: [fmt.Errorf] without a [%w] verb is [errors.New]. *)
Definition check (v : Options) (next : nat) : option error * nat :=
  if MaxBackoffTimeout v <? MinBackoffTimeout v then
    let '(e, next') := New next check_message in (Some e, next')
  else (None, next).

(** The delay of line 117:
    [min(opts.MinBackoffTimeout<<time.Duration(i), opts.MaxBackoffTimeout)]. *)
Definition backoff (v : Options) (i : Z) : option Duration :=
  match shl64 (MinBackoffTimeout v) i with
  | Some d => Some (Z.min d (MaxBackoffTimeout v))
  | None => None
  end.

(** *** Inputs of a run *)

Inductive event : Type :=
| Posted (r : request)                        (* a POST reaches the endpoint *)
| ChildExit (n : nat) (status : option (nat * string))
                                             (* cmd.Run of child n returns *)
| CtxCancel (cause : option (nat * string))  (* the outer ctx is cancelled *)
| TimerFired.                                (* time.After delivers *)

Inductive input : Type :=
| Happens (e : event)
| Sched (pick : bool).   (* the main goroutine runs to its next wait *)

(** *** What a run does *)

Record Cmd : Type := mkCmd {
  cmd_args : list string;
  cmd_env : list string;
  cmd_waitDelay : Duration;
  cmd_signal : option Signal
}.

Inductive item : Type :=
| Start (n : nat) (cmd : Cmd)       (* go func() { cmd.Run() ... } *)
| LogDied (n : nat) (err : error)
| LogBackoff (timeout : Duration) (args : list string)
| LogReady
| Saw (e : event).

(** *** The loop as a machine *)

Inductive pc : Type :=
| LoopHead                    (* about to test ctx.Err() == nil *)
| Receiving                   (* in receiver(childCtx) *)
| Backoff (timeout : Duration)  (* select: ctx.Done / time.After *)
| Healthy                     (* select: ctx.Done / childCtx.Done *)
| Draining (r : option error)   (* deferred wg.Wait() *)
| Returned (r : option error)
| Panicked.

(** The variables of one iteration of the loop body. *)
Record attempt : Type := mkAttempt {
  at_id : nat;
  at_args : list string;
  at_childCtx : Context;
  at_ep : endpoint
}.

Record state : Type := mkState {
  st_pc : pc;
  st_i : Z;                      (* the loop variable i *)
  st_ctx : Context;              (* the ctx argument *)
  st_cur : option attempt;
  st_next : nat;                 (* next free address for errors.New *)
  st_started : nat;              (* children started so far *)
  st_watchers : list nat;        (* children whose watcher has not called wg.Done *)
  st_timer : bool;               (* the time.After channel has a value *)
  st_trace : list item           (* oldest first *)
}.

Record config : Type := mkConfig {
  cfg_envKey : string;
  cfg_opts : Options;
  cfg_world : world
}.

Definition with_pc (p : pc) (s : state) : state :=
  mkState p (st_i s) (st_ctx s) (st_cur s) (st_next s) (st_started s)
    (st_watchers s) (st_timer s) (st_trace s).
Definition with_i (i : Z) (s : state) : state :=
  mkState (st_pc s) i (st_ctx s) (st_cur s) (st_next s) (st_started s)
    (st_watchers s) (st_timer s) (st_trace s).
Definition with_ctx (c : Context) (s : state) : state :=
  mkState (st_pc s) (st_i s) c (st_cur s) (st_next s) (st_started s)
    (st_watchers s) (st_timer s) (st_trace s).
Definition with_cur (a : option attempt) (s : state) : state :=
  mkState (st_pc s) (st_i s) (st_ctx s) a (st_next s) (st_started s)
    (st_watchers s) (st_timer s) (st_trace s).
Definition with_next (n : nat) (s : state) : state :=
  mkState (st_pc s) (st_i s) (st_ctx s) (st_cur s) n (st_started s)
    (st_watchers s) (st_timer s) (st_trace s).
Definition with_started (n : nat) (s : state) : state :=
  mkState (st_pc s) (st_i s) (st_ctx s) (st_cur s) (st_next s) n
    (st_watchers s) (st_timer s) (st_trace s).
Definition with_watchers (l : list nat) (s : state) : state :=
  mkState (st_pc s) (st_i s) (st_ctx s) (st_cur s) (st_next s) (st_started s)
    l (st_timer s) (st_trace s).
Definition with_timer (b : bool) (s : state) : state :=
  mkState (st_pc s) (st_i s) (st_ctx s) (st_cur s) (st_next s) (st_started s)
    (st_watchers s) b (st_trace s).
Definition emit (x : item) (s : state) : state :=
  mkState (st_pc s) (st_i s) (st_ctx s) (st_cur s) (st_next s) (st_started s)
    (st_watchers s) (st_timer s) (st_trace s ++ [x]).

Definition with_childCtx (c : Context) (a : attempt) : attempt :=
  mkAttempt (at_id a) (at_args a) c (at_ep a).
Definition with_ep (ep : endpoint) (a : attempt) : attempt :=
  mkAttempt (at_id a) (at_args a) (at_childCtx a) ep.

Definition foreign (c : option (nat * string)) : option error :=
  match c with
  | Some (id, text) => Some (Foreign id text)
  | None => None
  end.

(** The watcher goroutine of child [n], once [cmd.Run()] has returned:
    [childCancel(err)] when err is not nil, then [childCancel(nil)],
    then [wg.Done()].  The context of an attempt that is over has been
    cancelled by the deferred [childCancel(nil)] already. *)
Definition child_exit (n : nat) (status : option (nat * string)) (s : state)
  : state :=
  let s := with_watchers (filter (fun m => m <> n) (st_watchers s)) s in
  let s := match foreign status with
           | Some err => emit (LogDied n err) s
           | None => s
           end in
  match st_cur s with
  | Some a =>
      if bool_decide (at_id a = n) then
        let c := cancel None (cancel (foreign status) (at_childCtx a)) in
        with_cur (Some (with_childCtx c a)) s
      else s
  | None => s
  end.

(** The outer context is cancelled: the contexts derived from it,
    [childCtx] and [rctx], follow. *)
Definition ctx_cancel (cause : option (nat * string)) (s : state) : state :=
  let c := cancel (foreign cause) (st_ctx s) in
  let s := with_ctx c s in
  match st_cur s with
  | Some a =>
      let ep := at_ep a in
      let ep' := Endpoint (errReady ep) (inherit c (rctx ep)) in
      with_cur (Some (mkAttempt (at_id a) (at_args a)
                        (inherit c (at_childCtx a)) ep')) s
  | None => s
  end.

(** An event that cannot happen in the current state (a child that is
    not running exits, a request when no server listens, a second
    cancellation, a timer nobody armed) is dropped. *)
Definition on_event (e : event) (s : state) : state :=
  match e with
  | Posted r =>
      match st_cur s with
      | Some a =>
          let '(ep', next') := handler r (st_next s) (at_ep a) in
          emit (Saw e) (with_next next' (with_cur (Some (with_ep ep' a)) s))
      | None => s
      end
  | ChildExit n status =>
      if bool_decide (n ∈ st_watchers s)
      then child_exit n status (emit (Saw e) s)
      else s
  | CtxCancel cause =>
      if Done (st_ctx s) then s else ctx_cancel cause (emit (Saw e) s)
  | TimerFired =>
      match st_pc s with
      | Backoff _ => if st_timer s then s else with_timer true (emit (Saw e) s)
      | _ => s
      end
  end.

(** The end of the function literal of one iteration: the deferred
    [closer()] and [childCancel(nil)] run, which retires the endpoint and
    the context of the attempt; then the post statement [i++], on an [int]
    of 64 bits. *)
Definition finish_attempt (s : state) : state :=
  with_pc LoopHead (with_i (int64_wrap (st_i s + 1)) (with_cur None s)).

(** Lines 80-112: the loop guard and the start of an attempt. *)
Definition start_attempt (cfg : config) (s : state) : state :=
  match Err (st_ctx s) with
  | Some _ => with_pc (Draining (Cause (st_ctx s))) s   (* ctx.Err() != nil *)
  | None =>
      let n := st_started s in
      match Executable (cfg_world cfg) n with
      | inr (id, text) =>
          with_pc (Draining (Some (Errorf_w
            "failed to lookup current executable: " (Foreign id text)))) s
      | inl binPath =>
          match Args (cfg_world cfg) with
          | [] => with_pc Panicked s    (* childArgs[0]: index out of range *)
          | _ :: rest =>
              let childArgs := binPath :: rest in
              let childCtx := WithCancelCause (st_ctx s) in
              let '(ep, next') := Receiver (st_next s) (st_ctx s) in
              let addrURL := ServerURL (cfg_world cfg) n in
              let childEnvItem := cfg_envKey cfg +:+ "=" +:+ addrURL in
              let cmd := mkCmd childArgs
                           (Environ (cfg_world cfg) ++ [childEnvItem])
                           (ShutdownTimeout (cfg_opts cfg))
                           (ShutdownSignal (cfg_opts cfg)) in
              let a := mkAttempt n childArgs childCtx ep in
              emit (Start n cmd)
                (with_pc Receiving
                  (with_watchers (n :: st_watchers s)
                    (with_started (S n)
                      (with_next next' (with_cur (Some a) s)))))
          end
      end
  end.

(** Lines 114-129: the result of the waiter. *)
Definition on_receive (cfg : config) (pick : bool) (a : attempt) (s : state)
  : state :=
  match receiver (at_ep a) (at_childCtx a) pick with
  | None => s
  | Some (ep', Some err) =>
      let a' := mkAttempt (at_id a) (at_args a)
                  (cancel (Some err) (at_childCtx a)) ep' in
      let s := with_cur (Some a') s in
      match backoff (cfg_opts cfg) (st_i s) with
      | None => with_pc Panicked s     (* negative shift count *)
      | Some timeout =>
          with_pc (Backoff timeout)
            (with_timer false (emit (LogBackoff timeout (at_args a)) s))
      end
  | Some (ep', None) =>
      let s := with_cur (Some (with_ep ep' a)) s in
      with_pc Healthy (emit LogReady (with_i 0 s))
  end.

Definition on_sched (cfg : config) (pick : bool) (s : state) : state :=
  match st_pc s with
  | LoopHead => start_attempt cfg s
  | Receiving =>
      match st_cur s with
      | Some a => on_receive cfg pick a s
      | None => s
      end
  | Backoff _ =>
      if Done (st_ctx s) || st_timer s then finish_attempt s else s
  | Healthy =>
      match st_cur s with
      | Some a =>
          if Done (st_ctx s) || Done (at_childCtx a)
          then finish_attempt s else s
      | None => s
      end
  | Draining r =>
      match st_watchers s with
      | [] => with_pc (Returned r) s
      | _ :: _ => s
      end
  | Returned _ | Panicked => s
  end.

Definition step (cfg : config) (s : state) (x : input) : state :=
  match x with
  | Happens e => on_event e s
  | Sched pick => on_sched cfg pick s
  end.

Definition run (cfg : config) (ins : list input) (s : state) : state :=
  foldl (step cfg) s ins.

(** A burst of events with the main goroutine not scheduled in between. *)
Definition run_events (evs : list event) (s : state) : state :=
  foldl (fun s e => on_event e s) s evs.

(** The state on entry to the [for] statement: [i := 0]. *)
Definition loop_entry (ctx : Context) (next : nat) : state :=
  mkState LoopHead 0 ctx None next 0 [] false [].

(** *** SelfMonitor *)

(** Memory holding [Options] values, by address. *)
Abbreviation heap := (gmap nat Options).

Inductive outcome : Type :=
| Done_early (r : option error)    (* returned before the loop *)
| Looping (cfg : config) (s : state).

(** Lines 64-78: the checks between [setDefaults] and the [for]
    statement, on the options [v] as [setDefaults] left them. *)
Definition SelfMonitor_checks (w : world) (next : nat) (ctx : Context)
    (envKey : string) (v : Options) : outcome :=
  match check v next with
  | (Some err, _) => Done_early (Some err)
  | (None, next) =>
      if (String.length envKey =? 0)%nat
      then Done_early (Some ErrInvalid)
      else if negb (String.length (Getenv w envKey) =? 0)%nat
      then Done_early None
      else Looping (mkConfig envKey v w) (loop_entry ctx next)
  end.

(** Lines 59-78, up to the [for] statement.  [opts] is the pointer
    argument ([None] is nil, for which [new(Options)] allocates).
    [setDefaults] has a pointer receiver: it writes through [opts].
    [None] as a result: [opts] points to no [Options] value, which a Go
    program cannot express. *)
Definition SelfMonitor_enter (w : world) (h : heap) (next : nat)
    (ctx : Context) (envKey : string) (opts : option nat)
  : option (heap * outcome) :=
  let '(h, p) := match opts with
                 | Some p => (h, p)
                 | None => let p := fresh (dom h) in (<[p := zeroOptions]> h, p)
                 end in
  match h !! p with
  | None => None
  | Some v =>
      let v := setDefaults v in
      Some (<[p := v]> h, SelfMonitor_checks w next ctx envKey v)
  end.

(** The [Options] value a call works on: the caller's, or a zero value. *)
Definition entry_options (h : heap) (opts : option nat) : option Options :=
  match opts with
  | Some p => h !! p
  | None => Some zeroOptions
  end.

(** A whole call, driven by [ins]: the final heap, the trace and the
    returned error if the call has returned. *)
Record result : Type := mkResult {
  res_heap : heap;
  res_trace : list item;
  res_pc : pc
}.

Definition SelfMonitor (w : world) (h : heap) (next : nat) (ctx : Context)
    (envKey : string) (opts : option nat) (ins : list input)
  : option result :=
  match SelfMonitor_enter w h next ctx envKey opts with
  | None => None
  | Some (h', Done_early r) => Some (mkResult h' [] (Returned r))
  | Some (h', Looping cfg s) =>
      let s' := run cfg ins s in
      Some (mkResult h' (st_trace s') (st_pc s'))
  end.

(** *** Reading a trace *)

(** A reader of the trace that looks for a restart of a healthy child:
    [w_ready] is set when the current child has reported readiness,
    [w_released] when that child has exited or the outer context has been
    cancelled since it was started, and [w_bad] when a child is started
    while the previous one was ready and not released. *)
Record watch : Type := mkWatch {
  w_cur : option nat;
  w_ready : bool;
  w_released : bool;
  w_bad : bool
}.

Definition watch0 : watch := mkWatch None false false false.

Definition watch_step (m : watch) (x : item) : watch :=
  match x with
  | Start n _ =>
      mkWatch (Some n) false false
        (w_bad m || (w_ready m && negb (w_released m)))
  | LogReady => mkWatch (w_cur m) true (w_released m) (w_bad m)
  | Saw (ChildExit n _) =>
      if bool_decide (w_cur m = Some n)
      then mkWatch (w_cur m) (w_ready m) true (w_bad m)
      else m
  | Saw (CtxCancel _) => mkWatch (w_cur m) (w_ready m) true (w_bad m)
  | _ => m
  end.

Definition no_spurious_restart (t : list item) : bool :=
  negb (w_bad (foldl watch_step watch0 t)).

(** What links a state of the loop to what the reader has seen of its
    trace: while an attempt waits (for the report, or as a healthy
    child), its contexts are live as long as the reader has not seen the
    child exit or the outer context cancelled; between attempts, a child
    that was ready has been released. *)
Definition live_until_released (m : watch) (s : state) (a : attempt) : Prop :=
  w_cur m = Some (at_id a)
  /\ (w_released m = false -> st_ctx s = None /\ at_childCtx a = None).

Definition waiting (p : pc) : bool :=
  match p with
  | Receiving | Healthy => true
  | _ => false
  end.

Definition restart_inv (s : state) : Prop :=
  let m := foldl watch_step watch0 (st_trace s) in
  w_bad m = false
  /\ (st_pc s = Receiving -> w_ready m = false)
  /\ (waiting (st_pc s) = true ->
      exists a, st_cur s = Some a /\ live_until_released m s a)
  /\ (waiting (st_pc s) = false -> w_ready m = true -> w_released m = true).

(** What holds of the attempt in progress: the sentinel of its endpoint
    is a value allocated earlier; the cause of [childCtx] is never the
    sentinel; the cause of [rctx] is the sentinel itself or a value that
    is not it; and while the waiter runs, the child is running or its
    exit has cancelled [childCtx]. *)
Definition attempt_inv (s : state) (a : attempt) : Prop :=
  (exists p, errReady (at_ep a) = errorString p "ready" /\ (p < st_next s)%nat)
  /\ (forall e, at_childCtx a = Some e -> Is e (errReady (at_ep a)) = false)
  /\ (forall e, rctx (at_ep a) = Some e ->
        e = errReady (at_ep a) \/ Is e (errReady (at_ep a)) = false)
  /\ (st_pc s = Receiving ->
      at_id a ∈ st_watchers s \/ Done (at_childCtx a) = true).

Definition sentinel_inv (s : state) : Prop :=
  (st_pc s = Receiving -> exists a, st_cur s = Some a)
  /\ (forall a, st_cur s = Some a -> attempt_inv s a).

(** The event is the exit of child [n]. *)
Definition is_exit_of (n : nat) (e : event) : bool :=
  match e with
  | ChildExit m _ => bool_decide (m = n)
  | _ => false
  end.

(** The waiter of child [n] has not returned, no ready report has
    reached its endpoint, and ([exited]) the exit of the child has
    cancelled [childCtx]. *)
Definition awaiting (n : nat) (i : Z) (exited : bool) (s : state) : Prop :=
  st_pc s = Receiving /\ st_i s = i
  /\ exists a, st_cur s = Some a /\ at_id a = n
     /\ (exists p, errReady (at_ep a) = errorString p "ready"
                   /\ (p < st_next s)%nat)
     /\ (forall e, at_childCtx a = Some e -> Is e (errReady (at_ep a)) = false)
     /\ (forall e, rctx (at_ep a) = Some e -> Is e (errReady (at_ep a)) = false)
     /\ (if exited then Done (at_childCtx a) = true
         else n ∈ st_watchers s \/ Done (at_childCtx a) = true).

(** The delays logged, oldest first. *)
Definition delays (t : list item) : list Duration :=
  omap (fun x => match x with LogBackoff d _ => Some d | _ => None end) t.

(** Children started, oldest first. *)
Definition starts (t : list item) : list nat :=
  omap (fun x => match x with Start n _ => Some n | _ => None end) t.

(** A "ready" report: a request with an empty body. *)
Definition is_ready_event (e : event) : bool :=
  match e with
  | Posted (Body data) => (String.length data =? 0)%nat
  | _ => false
  end.

(** One failed attempt in which child [n] exits with status 0 before it
    reports, followed by the whole backoff delay. *)
Definition failed_attempt (n : nat) : list input :=
  [Sched true; Happens (ChildExit n None); Sched true;
   Happens TimerFired; Sched true].

Definition failed_attempts (k : nat) : list input :=
  flat_map failed_attempt (seq 0 k).

(** *** Further readers of a trace *)

(** No child is started once the cancellation of the outer context has
    been seen. *)
Record cancel_watch : Type := mkCancelWatch {
  cw_cancelled : bool;
  cw_bad : bool
}.

Definition cancel_step (m : cancel_watch) (x : item) : cancel_watch :=
  match x with
  | Saw (CtxCancel _) => mkCancelWatch true (cw_bad m)
  | Start _ _ => mkCancelWatch (cw_cancelled m) (cw_bad m || cw_cancelled m)
  | _ => m
  end.

Definition no_start_after_cancel (t : list item) : bool :=
  negb (cw_bad (foldl cancel_step (mkCancelWatch false false) t)).

(** "child is initialized successfully" is logged only when a ready report
    has been handled since the child was started. *)
Record report_watch : Type := mkReportWatch {
  rw_reported : bool;
  rw_bad : bool
}.

Definition report_step (m : report_watch) (x : item) : report_watch :=
  match x with
  | Start _ _ => mkReportWatch false (rw_bad m)
  | Saw e => mkReportWatch (rw_reported m || is_ready_event e) (rw_bad m)
  | LogReady => mkReportWatch (rw_reported m) (rw_bad m || negb (rw_reported m))
  | _ => m
  end.

Definition ready_only_after_report (t : list item) : bool :=
  negb (rw_bad (foldl report_step (mkReportWatch false false) t)).

(** Each logged delay is [backoff] at the index the reader keeps: 0 at the
    start, one more after each logged delay, and 1 after the log of a
    ready child. *)
Record index_watch : Type := mkIndexWatch {
  iw_index : Z;
  iw_ok : bool
}.

Definition index_step (v : Options) (m : index_watch) (x : item)
  : index_watch :=
  match x with
  | LogBackoff d _ =>
      mkIndexWatch (int64_wrap (iw_index m + 1))
        (iw_ok m && bool_decide (backoff v (iw_index m) = Some d))
  | LogReady => mkIndexWatch 1 (iw_ok m)
  | _ => m
  end.

Definition delays_follow_index (v : Options) (t : list item) : bool :=
  iw_ok (foldl (index_step v) (mkIndexWatch 0 true) t).

Definition index_inv (cfg : config) (s : state) : Prop :=
  let m := foldl (index_step (cfg_opts cfg)) (mkIndexWatch 0 true) (st_trace s) in
  iw_ok m = true
  /\ match st_pc s with
     | Backoff _ => int64_wrap (st_i s + 1) = iw_index m
     | Healthy => st_i s = 0 /\ iw_index m = 1
     | _ => st_i s = iw_index m
     end.

(** The command of child [n], when the executable is found at [path]. *)
Definition child_command (cfg : config) (n : nat) (path : string) : Cmd :=
  mkCmd (path :: tail (Args (cfg_world cfg)))
    (Environ (cfg_world cfg)
       ++ [cfg_envKey cfg +:+ "=" +:+ ServerURL (cfg_world cfg) n])
    (ShutdownTimeout (cfg_opts cfg))
    (ShutdownSignal (cfg_opts cfg)).

Definition start_as_configured (cfg : config) (x : item) : Prop :=
  match x with
  | Start n cmd =>
      exists path,
        Executable (cfg_world cfg) n = inl path
        /\ cmd = child_command cfg n path
  | _ => True
  end.

(** What the final error of the loop can be: the cause of the outer
    context, or the failure to find the executable. *)
Definition final_error (cfg : config) (s : state) (r : option error) : Prop :=
  exists e, r = Some e
    /\ (st_ctx s = Some e
        \/ exists n id text,
             Executable (cfg_world cfg) n = inr (id, text)
             /\ e = Errorf_w "failed to lookup current executable: "
                     (Foreign id text)).

Definition return_inv (cfg : config) (s : state) : Prop :=
  match st_pc s with
  | Draining r => final_error cfg s r
  | Returned r => final_error cfg s r /\ st_watchers s = []
  | _ => True
  end.

(** The contexts of the attempt in progress are done when the outer
    context is. *)
Definition inherited (s : state) : Prop :=
  forall a, st_cur s = Some a -> Done (st_ctx s) = true ->
    Done (at_childCtx a) = true /\ Done (rctx (at_ep a)) = true.

(** The outer context is done and the loop is on its way out. *)
Definition winding_down (s : state) : Prop :=
  Done (st_ctx s) = true
  /\ inherited s
  /\ (waiting (st_pc s) = true -> exists a, st_cur s = Some a)
  /\ (st_pc s = Receiving -> 0 <= st_i s)
  /\ st_pc s <> Panicked.

(** How many times the loop must be scheduled, at most, to reach the
    deferred wait once the outer context is done. *)
Definition rank (p : pc) : nat :=
  match p with
  | Receiving => 3
  | Backoff _ | Healthy => 2
  | LoopHead => 1
  | Draining _ | Returned _ | Panicked => 0
  end.

Fixpoint scheds (ins : list input) : nat :=
  match ins with
  | [] => 0
  | Sched _ :: rest => S (scheds rest)
  | Happens _ :: rest => scheds rest
  end.

End monitor.


(** ** Package daemon *)

Module daemon.

Record ProcAttr : Type := mkProcAttr {
  attr_Dir : string;
  attr_Env : list string;
  attr_Files : list string
}.

(** How [proc.Wait()] ends: with an error, or with a process state
    (exit code, -1 when a signal ended the process). *)
Inductive wait_result : Type :=
| WaitFailed (id : nat) (text : string)
| Exited (code : Z).

(** What the operating system answers during one call of [Daemonize].
    [sys_wait] is [Some r] when the background process ends, with [r],
    before [check] returns. *)
Record system : Type := mkSystem {
  sys_world : world;
  sys_open : option (nat * string);      (* error of os.OpenFile("/dev/null") *)
  sys_start : option (nat * string);     (* error of os.StartProcess *)
  sys_wait : option wait_result;
  sys_setsid : option (nat * string)     (* error of unix.Setsid *)
}.

Inductive call : Type :=
| StartProcess (path : string) (argv : list string) (attr : ProcAttr)
| Kill
| Setsid
| LogDiscard.

(** [ReadyFunc]: what the callback returns for the state in which it
    finds the context it is given. *)
Definition ReadyFunc : Type := Context -> option error.

Definition decimal (z : Z) : string :=
  match z with
  | Z0 => "0"
  | Zpos p => pretty.pretty (N.pos p)
  | Zneg p => "-" +:+ pretty.pretty (N.pos p)
  end.

(** The cause recorded by the goroutine that waits for the process. *)
Definition wait_cause (r : wait_result) (next : nat) : error * nat :=
  match r with
  | WaitFailed id text =>
      (Errorf_w "could not wait on child process: " (Foreign id text), next)
  | Exited code =>
      if code =? 0 then New next "child exited successfully with exit code 0"
      else if code =? -1 then New next "child is terminated by a signal"
      else New next ("child exited with exit code " +:+ decimal code)
  end.

Definition daemonizeParent (sys : system) (next : nat) (ctx : Context)
    (envKey envValue : string) (check : option ReadyFunc)
  : list call * option error :=
  let w := sys_world sys in
  match Executable w 0 with
  | inr (id, text) =>
      ([], Some (Errorf_w "failed to lookup binary: " (Foreign id text)))
  | inl binaryPath =>
      match sys_open sys with
      | Some (id, text) =>
          ([], Some (Errorf_w "failed to open /dev/null: " (Foreign id text)))
      | None =>
          let attr := mkProcAttr "/"
                        [ "PATH=" +:+ Getenv w "PATH";
                          "USER=" +:+ Getenv w "USER";
                          "HOME=" +:+ Getenv w "HOME";
                          envKey +:+ "=" +:+ envValue ]
                        [ "/dev/null"; "/dev/null"; "/dev/null" ] in
          let started := [StartProcess binaryPath (Args w) attr] in
          match sys_start sys with
          | Some (id, text) =>
              (started,
               Some (Errorf_w "failed to start process: " (Foreign id text)))
          | None =>
              let c := WithCancelCause ctx in
              let c := match sys_wait sys with
                       | Some r => cancel (Some (fst (wait_cause r next))) c
                       | None => c
                       end in
              match check with
              | Some f =>
                  match f c with
                  | Some err => ((started ++ [Kill])%list, Some err)
                  | None => (started, None)
                  end
              | None => (started, None)
              end
          end
      end
  end.

Definition daemonizeChild (sys : system) : list call * option error :=
  match sys_setsid sys with
  | Some (id, text) =>
      ([Setsid], Some (Errorf_w "could not set session id: " (Foreign id text)))
  | None => ([Setsid; LogDiscard], None)
  end.

(** [Daemonize]: the calls made, the [foreground] flag and the error. *)
Definition Daemonize (sys : system) (next : nat) (ctx : Context)
    (envKey envValue : string) (check : option ReadyFunc)
  : list call * (bool * option error) :=
  if (String.length envKey =? 0)%nat || (String.length envValue =? 0)%nat
  then ([], (true, Some ErrInvalid))
  else if (String.length (Getenv (sys_world sys) envKey) =? 0)%nat then
    let '(calls, err) := daemonizeParent sys next ctx envKey envValue check in
    (calls, (true, err))
  else
    let '(calls, err) := daemonizeChild sys in
    (calls, (false, err)).

(** *** The environment as the started process reads it *)

(** The runtime of a process splits each entry of its environment block at
    the first '='; an entry without one names no variable. *)
Fixpoint split_entry (s : string) : option (string * string) :=
  match s with
  | EmptyString => None
  | String c rest =>
      if Ascii.eqb c "="%char then Some (EmptyString, rest)
      else match split_entry rest with
           | Some (k, v) => Some (String c k, v)
           | None => None
           end
  end.

Definition parse_environ (env : list string) : list (string * string) :=
  omap split_entry env.

Fixpoint has_equals (s : string) : bool :=
  match s with
  | EmptyString => false
  | String c rest => Ascii.eqb c "="%char || has_equals rest
  end.

(** The world of the process that [os.StartProcess] creates: its arguments
    and the environment block it was given. *)
Definition spawned_world (w : world) (argv : list string) (attr : ProcAttr)
  : world :=
  World (parse_environ (attr_Env attr)) argv (Executable w) (ServerURL w).

(** A [ReadyFunc] that is the waiter of the endpoint [ep]: whenever the
    waiter returns, so does the callback, with the same error. *)
Definition waits_on (ep : initstatus.endpoint) (pick : bool) (f : ReadyFunc)
  : Prop :=
  forall c ep' r, initstatus.receiver ep c pick = Some (ep', r) -> f c = r.

End daemon.

(** ** Concrete inputs used in the examples below *)

Module sample.
Import initstatus monitor.

Definition w : world :=
  World [("PATH", "/bin"); ("USER", "svc"); ("HOME", "/home/svc");
         ("LANG", "C")]
        ["prog"; "-self-monitor"]
        (fun _ => inl "/usr/bin/prog")
        (fun n => "http://127.0.0.1:" +:+ pretty n).

(** The same environment as seen by a monitored child. *)
Definition w_child : world :=
  World (("SELFMONITOR_ENVKEY", "http://127.0.0.1:0") :: Env w)
        (Args w) (Executable w) (ServerURL w).

Definition defaults : Options := setDefaults zeroOptions.

Definition cfg : config := mkConfig "SELFMONITOR_ENVKEY" defaults w.

(** Options that [check] rejects. *)
Definition bad_opts : Options := mkOptions None 0 (2 * Second) Second.

(** The first child reports readiness and later exits; the second child
    exits before it reports. *)
Definition ready_then_fail : list input :=
  [Sched true; Happens (Posted (Body "")); Sched true;
   Happens (ChildExit 0%nat None); Sched true;
   Sched true; Happens (ChildExit 1%nat None); Sched true].

End sample.

(** * Properties *)

Import initstatus monitor.

(** ** Backoff arithmetic *)

Lemma int64_wrap_id z : - 2 ^ 63 <= z < 2 ^ 63 -> int64_wrap z = z.
Proof.
  intros Hz. unfold int64_wrap.
  rewrite Z.mod_small by lia. lia.
Qed.

Lemma shl64_exact x n :
  0 <= n -> - 2 ^ 63 <= x * 2 ^ n < 2 ^ 63 -> shl64 x n = Some (x * 2 ^ n).
Proof.
  intros Hn Hr. unfold shl64.
  destruct (n <? 0) eqn:Hneg; [apply Z.ltb_lt in Hneg; lia|].
  destruct (64 <=? n) eqn:Hbig.
  - apply Z.leb_le in Hbig.
    assert (Hp : 2 ^ 64 <= 2 ^ n) by (apply Z.pow_le_mono_r; lia).
    assert (Hx : x = 0) by nia.
    subst x. now rewrite Z.mul_0_l.
  - rewrite Z.shiftl_mul_pow2 by lia.
    now rewrite int64_wrap_id.
Qed.

(** Where the shifted value fits in an int64, the delay is the one of the
    formula. *)
Lemma backoff_exact v i :
  0 <= i ->
  - 2 ^ 63 <= MinBackoffTimeout v * 2 ^ i < 2 ^ 63 ->
  backoff v i = Some (Z.min (MinBackoffTimeout v * 2 ^ i) (MaxBackoffTimeout v)).
Proof.
  intros Hi Hr. unfold backoff. now rewrite shl64_exact.
Qed.

(** From 64 failures in a row on, the supervisor restarts without delay. *)
Lemma backoff_zero v i :
  64 <= i -> 0 <= MaxBackoffTimeout v -> backoff v i = Some 0.
Proof.
  intros Hi Hm. unfold backoff, shl64.
  destruct (i <? 0) eqn:Hneg; [apply Z.ltb_lt in Hneg; lia|].
  destruct (64 <=? i) eqn:Hbig; [|apply Z.leb_gt in Hbig; lia].
  f_equal. lia.
Qed.

(** C2: with the default options the delay computed at attempt index 34 is
    not min(minBackoff * 2^34, maxBackoff) = one minute: the shift wraps
    around in int64 and the minimum is the negative wrapped value.  The
    35th failure in a row of a run reaches that index and logs that delay. *)
Theorem C2_backoff_wraps_at_index_34 :
  backoff sample.defaults 34 = Some (-1266874889709551616)
  /\ Z.min (MinBackoffTimeout sample.defaults * 2 ^ 34)
           (MaxBackoffTimeout sample.defaults) = Minute
  /\ last (delays (st_trace (run sample.cfg (failed_attempts 35)
                               (loop_entry None 0))))
     = Some (-1266874889709551616).
Proof. repeat split; vm_compute; reflexivity. Qed.

(** ** The reset of the attempt index *)

(** Leaving the healthy wait runs the post statement on the index that was
    just reset: the next attempt starts with index 1. *)
Lemma healthy_leaves_with_index_one cfg pick s a :
  st_pc s = Healthy -> st_i s = 0 -> st_cur s = Some a ->
  Done (st_ctx s) || Done (at_childCtx a) = true ->
  st_pc (on_sched cfg pick s) = LoopHead /\ st_i (on_sched cfg pick s) = 1.
Proof.
  intros Hpc Hi Hcur Hd. unfold on_sched. rewrite Hpc, Hcur, Hd.
  cbn. rewrite Hi. split; reflexivity.
Qed.

(** C1: default options; the first child reports readiness (the index is
    set to 0) and later exits; the second child exits before it reports.
    The delay logged for that first failure after the success is two
    seconds, the delay of index 1, where index 0 gives one second. *)
Theorem C1_first_failure_after_success_uses_index_1 :
  let s := run sample.cfg sample.ready_then_fail (loop_entry None 0) in
  delays (st_trace s) = [2 * Second]
  /\ backoff sample.defaults 1 = Some (2 * Second)
  /\ backoff sample.defaults 0 = Some (MinBackoffTimeout sample.defaults)
  /\ starts (st_trace s) = [0%nat; 1%nat]
  /\ st_i s = 1.
Proof. repeat split; vm_compute; reflexivity. Qed.

(** ** Entry checks of SelfMonitor *)

Lemma setDefaults_fields v :
  ShutdownSignal (setDefaults v)
    = Some (default Interrupt (ShutdownSignal v))
  /\ ShutdownTimeout (setDefaults v)
    = (if ShutdownTimeout v =? 0 then 10 * Second else ShutdownTimeout v)
  /\ MinBackoffTimeout (setDefaults v)
    = (if MinBackoffTimeout v =? 0 then Second else MinBackoffTimeout v)
  /\ MaxBackoffTimeout (setDefaults v)
    = (if MaxBackoffTimeout v =? 0 then Minute else MaxBackoffTimeout v).
Proof.
  destruct v as [sg st mn mx]. unfold setDefaults. cbn.
  destruct sg as [sg|]; cbn;
    destruct (st =? 0); cbn; destruct (mn =? 0); cbn; destruct (mx =? 0);
    cbn; repeat split; reflexivity.
Qed.

Lemma checks_bad_options w next ctx envKey v :
  MaxBackoffTimeout v < MinBackoffTimeout v ->
  SelfMonitor_checks w next ctx envKey v
    = Done_early (Some (errorString next check_message)).
Proof.
  intros Hlt. unfold SelfMonitor_checks, check.
  apply Z.ltb_lt in Hlt. now rewrite Hlt.
Qed.

Lemma checks_good_options w next ctx envKey v :
  MinBackoffTimeout v <= MaxBackoffTimeout v ->
  SelfMonitor_checks w next ctx envKey v
    = if (String.length envKey =? 0)%nat then Done_early (Some ErrInvalid)
      else if negb (String.length (Getenv w envKey) =? 0)%nat
      then Done_early None
      else Looping (mkConfig envKey v w) (loop_entry ctx next).
Proof.
  intros Hle. unfold SelfMonitor_checks, check.
  apply Z.ltb_ge in Hle. now rewrite Hle.
Qed.

Lemma length_zero_iff (s : string) : (String.length s =? 0)%nat = true <-> s = "".
Proof.
  destruct s; cbn; split; congruence.
Qed.

Lemma enter_total w h next ctx envKey opts v0 :
  entry_options h opts = Some v0 ->
  exists h',
    SelfMonitor_enter w h next ctx envKey opts
    = Some (h', SelfMonitor_checks w next ctx envKey (setDefaults v0)).
Proof.
  unfold SelfMonitor_enter, entry_options. destruct opts as [p|].
  - intros ->. eexists. reflexivity.
  - intros [= <-]. cbn. rewrite lookup_insert_eq. eexists. reflexivity.
Qed.

(** A call whose checks end in a return has returned, whatever the inputs,
    and has started nothing. *)
Lemma SelfMonitor_early w h next ctx envKey opts ins v0 e :
  entry_options h opts = Some v0 ->
  SelfMonitor_checks w next ctx envKey (setDefaults v0) = Done_early e ->
  exists r,
    SelfMonitor w h next ctx envKey opts ins = Some r
    /\ res_pc r = Returned e /\ res_trace r = [].
Proof.
  intros Hv Hc. destruct (enter_total w h next ctx envKey opts v0 Hv) as [h' He].
  unfold SelfMonitor. rewrite He, Hc. eexists. repeat split.
Qed.

(** C6, as the code has it: the options are checked first.  When, after the
    defaults, maxBackoff < minBackoff the call returns the configuration
    error, whatever envKey is; when the options are consistent and envKey
    is empty it returns os.ErrInvalid.  In both cases the call returns and
    nothing was started. *)
Theorem C6_rejects_before_spawn w h next ctx envKey opts ins v0 :
  entry_options h opts = Some v0 ->
  (MaxBackoffTimeout (setDefaults v0) < MinBackoffTimeout (setDefaults v0) ->
     exists r e,
       SelfMonitor w h next ctx envKey opts ins = Some r
       /\ res_pc r = Returned (Some e) /\ Error e = check_message
       /\ res_trace r = [])
  /\ (envKey = "" ->
      MinBackoffTimeout (setDefaults v0) <= MaxBackoffTimeout (setDefaults v0) ->
      exists r,
        SelfMonitor w h next ctx envKey opts ins = Some r
        /\ res_pc r = Returned (Some ErrInvalid) /\ res_trace r = []).
Proof.
  intros Hv. split.
  - intros Hlt.
    destruct (SelfMonitor_early w h next ctx envKey opts ins v0 _ Hv
                (checks_bad_options w next ctx envKey _ Hlt))
      as (r & Hr & Hpc & Ht).
    exists r. eexists. split; [exact Hr|]. split; [exact Hpc|].
    split; [reflexivity|exact Ht].
  - intros -> Hle.
    apply SelfMonitor_early with (v0 := v0); [exact Hv|].
    now rewrite checks_good_options.
Qed.

Lemma C6_rejects_before_spawn_witness :
  let h : heap := {[ 3%nat := sample.bad_opts ]} in
  (h !! 3%nat = Some sample.bad_opts
   /\ MaxBackoffTimeout (setDefaults sample.bad_opts)
      < MinBackoffTimeout (setDefaults sample.bad_opts)
   /\ exists r e,
       SelfMonitor sample.w h 7 None "" (Some 3%nat) sample.ready_then_fail
         = Some r
       /\ res_pc r = Returned (Some e) /\ Error e = check_message
       /\ res_trace r = [])
  /\ (MinBackoffTimeout sample.defaults <= MaxBackoffTimeout sample.defaults
      /\ exists r,
          SelfMonitor sample.w h 7 None "" None sample.ready_then_fail = Some r
          /\ res_pc r = Returned (Some ErrInvalid) /\ res_trace r = []).
Proof.
  intros h.
  assert (Hp : entry_options h (Some 3%nat) = Some sample.bad_opts)
    by reflexivity.
  assert (Hlt : MaxBackoffTimeout (setDefaults sample.bad_opts)
                < MinBackoffTimeout (setDefaults sample.bad_opts))
    by (vm_compute; reflexivity).
  assert (Hle : MinBackoffTimeout sample.defaults
                <= MaxBackoffTimeout sample.defaults)
    by (vm_compute; discriminate).
  split.
  - split; [exact Hp|]. split; [exact Hlt|].
    exact (proj1 (C6_rejects_before_spawn sample.w h 7 None "" (Some 3%nat)
                    sample.ready_then_fail sample.bad_opts Hp) Hlt).
  - split; [exact Hle|].
    exact (proj2 (C6_rejects_before_spawn sample.w h 7 None "" None
                    sample.ready_then_fail zeroOptions eq_refl) eq_refl Hle).
Defined.

(** C6 as stated fails: with an empty envKey and options that [check]
    rejects, the error returned is the configuration error. *)
Lemma C6_empty_key_not_always_invalid :
  ~ (forall w h next ctx opts ins r,
        SelfMonitor w h next ctx "" opts ins = Some r ->
        res_pc r = Returned (Some ErrInvalid)).
Proof.
  intros H.
  specialize (H sample.w {[ 0%nat := sample.bad_opts ]} 0%nat None
                (Some 0%nat) []
                (mkResult (<[0%nat := setDefaults sample.bad_opts]>
                             {[ 0%nat := sample.bad_opts ]})
                          [] (Returned (Some (errorString 0 check_message))))
                eq_refl).
  discriminate H.
Qed.

(** C7, as the code has it: when envKey has a non-empty value in the
    environment and the options, after the defaults, pass [check], the call
    returns nil, whatever the inputs, and nothing was started. *)
Theorem C7_child_returns_nil w h next ctx envKey opts ins v0 :
  entry_options h opts = Some v0 ->
  Getenv w envKey <> "" ->
  MinBackoffTimeout (setDefaults v0) <= MaxBackoffTimeout (setDefaults v0) ->
  exists r,
    SelfMonitor w h next ctx envKey opts ins = Some r
    /\ res_pc r = Returned None /\ res_trace r = [].
Proof.
  intros Hv Henv Hle.
  apply SelfMonitor_early with (v0 := v0); [exact Hv|].
  rewrite checks_good_options by exact Hle.
  destruct (String.length envKey =? 0)%nat eqn:Hk.
  - apply length_zero_iff in Hk. subst envKey. now destruct Henv.
  - destruct (String.length (Getenv w envKey) =? 0)%nat eqn:Hg; [|reflexivity].
    apply length_zero_iff in Hg. contradiction.
Qed.

Lemma C7_child_returns_nil_witness :
  Getenv sample.w_child "SELFMONITOR_ENVKEY" <> ""
  /\ MinBackoffTimeout sample.defaults <= MaxBackoffTimeout sample.defaults
  /\ exists r,
      SelfMonitor sample.w_child ∅ 0 None "SELFMONITOR_ENVKEY" None
        sample.ready_then_fail = Some r
      /\ res_pc r = Returned None /\ res_trace r = [].
Proof.
  assert (Henv : Getenv sample.w_child "SELFMONITOR_ENVKEY" <> "")
    by (vm_compute; discriminate).
  assert (Hle : MinBackoffTimeout sample.defaults
                <= MaxBackoffTimeout sample.defaults)
    by (vm_compute; discriminate).
  split; [exact Henv|]. split; [exact Hle|].
  exact (C7_child_returns_nil sample.w_child ∅ 0 None "SELFMONITOR_ENVKEY"
           None sample.ready_then_fail zeroOptions eq_refl Henv Hle).
Defined.

(** C7 as stated fails: a monitored child whose options are rejected by
    [check] gets the configuration error, not nil. *)
Lemma C7_child_with_bad_options_gets_error :
  ~ (forall w h next ctx envKey opts ins r,
        Getenv w envKey <> "" ->
        SelfMonitor w h next ctx envKey opts ins = Some r ->
        res_pc r = Returned None).
Proof.
  intros H.
  assert (Henv : Getenv sample.w_child "SELFMONITOR_ENVKEY" <> "")
    by (vm_compute; discriminate).
  specialize (H sample.w_child {[ 0%nat := sample.bad_opts ]} 0%nat None
                "SELFMONITOR_ENVKEY" (Some 0%nat) []
                (mkResult (<[0%nat := setDefaults sample.bad_opts]>
                             {[ 0%nat := sample.bad_opts ]})
                          [] (Returned (Some (errorString 0 check_message))))
                Henv eq_refl).
  discriminate H.
Qed.

(** C9: a call with a non-nil [opts] leaves, at the caller's address, the
    value [setDefaults] computes: each zero field holds its default, each
    other field its old value.  This holds on every path, also when the call
    returns an error, and no other [Options] value is touched. *)
Theorem C9_defaults_written_through_pointer w h next ctx envKey p v0 ins :
  h !! p = Some v0 ->
  exists r v,
    SelfMonitor w h next ctx envKey (Some p) ins = Some r
    /\ res_heap r !! p = Some v
    /\ (forall q, q <> p -> res_heap r !! q = h !! q)
    /\ ShutdownSignal v = Some (default Interrupt (ShutdownSignal v0))
    /\ ShutdownTimeout v
       = (if ShutdownTimeout v0 =? 0 then 10 * Second else ShutdownTimeout v0)
    /\ MinBackoffTimeout v
       = (if MinBackoffTimeout v0 =? 0 then Second else MinBackoffTimeout v0)
    /\ MaxBackoffTimeout v
       = (if MaxBackoffTimeout v0 =? 0 then Minute else MaxBackoffTimeout v0).
Proof.
  intros Hp.
  assert (He : SelfMonitor_enter w h next ctx envKey (Some p)
               = Some (<[p := setDefaults v0]> h,
                       SelfMonitor_checks w next ctx envKey (setDefaults v0))).
  { unfold SelfMonitor_enter. now rewrite Hp. }
  unfold SelfMonitor. rewrite He.
  destruct (SelfMonitor_checks w next ctx envKey (setDefaults v0)) as [e|cfg s];
    eexists; exists (setDefaults v0);
    (split; [reflexivity|]); cbn;
    (split; [apply lookup_insert_eq|]);
    (split; [intros q Hq; now apply lookup_insert_ne|]);
    apply setDefaults_fields.
Qed.

Lemma C9_defaults_written_through_pointer_witness :
  let v0 := mkOptions None 0 (5 * Second) 0 in
  let h : heap := {[ 4%nat := v0 ]} in
  h !! 4%nat = Some v0
  /\ exists r v,
      SelfMonitor sample.w h 0 None "K" (Some 4%nat) [] = Some r
      /\ res_heap r !! 4%nat = Some v
      /\ (forall q, q <> 4%nat -> res_heap r !! q = h !! q)
      /\ ShutdownSignal v = Some (default Interrupt (ShutdownSignal v0))
      /\ ShutdownTimeout v
         = (if ShutdownTimeout v0 =? 0 then 10 * Second else ShutdownTimeout v0)
      /\ MinBackoffTimeout v
         = (if MinBackoffTimeout v0 =? 0 then Second else MinBackoffTimeout v0)
      /\ MaxBackoffTimeout v
         = (if MaxBackoffTimeout v0 =? 0 then Minute else MaxBackoffTimeout v0).
Proof.
  intros v0 h.
  assert (Hp : h !! 4%nat = Some v0) by reflexivity.
  split; [exact Hp|].
  exact (C9_defaults_written_through_pointer sample.w h 0 None "K" 4%nat v0 []
           Hp).
Defined.

(** ** The environment of the background process *)

(** C8: in the foreground role (envKey and envValue not empty, envKey
    without a value in the environment), once the executable and /dev/null
    are found, the first call is the start of the background process, and
    its environment is the list of exactly four entries PATH, USER, HOME
    (with what [os.Getenv] gives for them) and envKey=envValue.  Nothing
    else is started: the only other call there can be is the kill of that
    process. *)
Theorem C8_background_environment sys next ctx envKey envValue check path :
  envKey <> "" -> envValue <> "" ->
  Getenv (daemon.sys_world sys) envKey = "" ->
  Executable (daemon.sys_world sys) 0 = inl path ->
  daemon.sys_open sys = None ->
  exists rest,
    fst (daemon.Daemonize sys next ctx envKey envValue check)
    = daemon.StartProcess path (Args (daemon.sys_world sys))
        (daemon.mkProcAttr "/"
           [ "PATH=" +:+ Getenv (daemon.sys_world sys) "PATH";
             "USER=" +:+ Getenv (daemon.sys_world sys) "USER";
             "HOME=" +:+ Getenv (daemon.sys_world sys) "HOME";
             envKey +:+ "=" +:+ envValue ]
           [ "/dev/null"; "/dev/null"; "/dev/null" ]) :: rest
    /\ (rest = [] \/ rest = [daemon.Kill])
    /\ fst (snd (daemon.Daemonize sys next ctx envKey envValue check)) = true.
Proof.
  intros Hk Hv Hg Hexe Hopen. unfold daemon.Daemonize.
  destruct (String.length envKey =? 0)%nat eqn:E1;
    [apply length_zero_iff in E1; contradiction|].
  destruct (String.length envValue =? 0)%nat eqn:E2;
    [apply length_zero_iff in E2; contradiction|].
  rewrite Hg. cbn. unfold daemon.daemonizeParent. rewrite Hexe, Hopen.
  destruct (daemon.sys_start sys) as [[id text]|].
  - eexists. cbn. split; [reflexivity|]. split; [now left|reflexivity].
  - destruct check as [f|].
    + match goal with
      | |- context [f ?c] => destruct (f c) as [err|]
      end; eexists; cbn; (split; [reflexivity|]); split;
        first [now left | now right | reflexivity].
    + eexists. cbn. split; [reflexivity|]. split; [now left|reflexivity].
Qed.

Lemma C8_background_environment_witness :
  let sys := daemon.mkSystem sample.w None None None None in
  "DAEMONIZE_ENVKEY" <> "" /\ "http://127.0.0.1:9" <> ""
  /\ Getenv sample.w "DAEMONIZE_ENVKEY" = ""
  /\ exists rest,
      fst (daemon.Daemonize sys 0 None "DAEMONIZE_ENVKEY" "http://127.0.0.1:9"
             None)
      = daemon.StartProcess "/usr/bin/prog" ["prog"; "-self-monitor"]
          (daemon.mkProcAttr "/"
             [ "PATH=/bin"; "USER=svc"; "HOME=/home/svc";
               "DAEMONIZE_ENVKEY=http://127.0.0.1:9" ]
             [ "/dev/null"; "/dev/null"; "/dev/null" ]) :: rest
      /\ (rest = [] \/ rest = [daemon.Kill])
      /\ fst (snd (daemon.Daemonize sys 0 None "DAEMONIZE_ENVKEY"
                     "http://127.0.0.1:9" None)) = true.
Proof.
  intros sys.
  assert (H1 : "DAEMONIZE_ENVKEY" <> "") by discriminate.
  assert (H2 : "http://127.0.0.1:9" <> "") by discriminate.
  assert (H3 : Getenv sample.w "DAEMONIZE_ENVKEY" = "") by reflexivity.
  split; [exact H1|]. split; [exact H2|]. split; [exact H3|].
  exact (C8_background_environment sys 0 None "DAEMONIZE_ENVKEY"
           "http://127.0.0.1:9" None "/usr/bin/prog" H1 H2 H3 eq_refl eq_refl).
Defined.

(** ** The readiness endpoint *)

Lemma Is_errorString p s target :
  Is (errorString p s) target = bool_decide (errorString p s = target).
Proof. cbn. now rewrite orb_false_r. Qed.

Lemma Is_errorString_ne p s q t :
  p <> q -> Is (errorString p s) (errorString q t) = false.
Proof.
  intros Hne. rewrite Is_errorString. apply bool_decide_eq_false_2. congruence.
Qed.

(** An error built before the sentinel was allocated is not the sentinel
    and does not wrap it. *)
Lemma Is_below n e s : below n e -> Is e (errorString n s) = false.
Proof.
  induction e as [| | |p t|msg inner IH|id text]; cbn; intros Hb;
    try reflexivity.
  - rewrite orb_false_r. apply bool_decide_eq_false_2. intros [= -> _]. lia.
  - now apply IH.
Qed.

Lemma Receiver_eq next ctx :
  Receiver next ctx = (Endpoint (errorString next "ready") ctx, S next).
Proof. reflexivity. Qed.

(** C3: for an endpoint whose parent context is live, whatever else was
    allocated since its creation ([k]) and whatever the random choice of
    [select] ([pick]): the waiter blocks while nothing has happened; after
    an empty-body report it returns nil; after a report with a non-empty
    body M it returns an error whose message is M; when only the caller's
    context is done it returns that context's cause; after the closer it
    returns os.ErrClosed, an error. *)
Theorem C3_receiver_outcomes (next k : nat) (pick : bool) :
  let ep := fst (Receiver next None) in
  let n := (snd (Receiver next None) + k)%nat in
  receiver ep None pick = None
  /\ snd <$> receiver (fst (handler (Body "") n ep)) None pick = Some None
  /\ (forall M, M <> "" ->
        exists e,
          snd <$> receiver (fst (handler (Body M) n ep)) None pick
            = Some (Some e)
          /\ Error e = M)
  /\ (forall c, Is c (errReady ep) = false ->
        snd <$> receiver ep (Some c) pick = Some (Some c))
  /\ snd <$> receiver (closer ep) None pick = Some (Some ErrClosed).
Proof.
  cbn zeta. rewrite Receiver_eq. cbn [fst snd].
  split; [reflexivity|].
  split.
  { cbn. rewrite orb_false_r, bool_decide_eq_true_2 by reflexivity.
    reflexivity. }
  split.
  { intros M HM. exists (errorString (S next + k) M).
    unfold handler.
    destruct (String.length M =? 0)%nat eqn:E;
      [apply length_zero_iff in E; contradiction|].
    cbn [negb New fst]. unfold receiver. cbn [rcancel rctx cancel select2
      errReady default from_option id].
    rewrite Is_errorString_ne by lia. cbn. split; reflexivity. }
  split.
  { intros c Hc. unfold receiver. cbn [rctx select2 errReady] in *.
    rewrite Hc. reflexivity. }
  reflexivity.
Qed.

Lemma C3_receiver_outcomes_witness :
  let ep := fst (Receiver 5 None) in
  "no database" <> ""
  /\ Is (Foreign 1 "signal: killed") (errReady ep) = false
  /\ (exists e,
        snd <$> receiver (fst (handler (Body "no database") 8 ep)) None true
          = Some (Some e)
        /\ Error e = "no database")
  /\ snd <$> receiver ep (Some (Foreign 1 "signal: killed")) false
     = Some (Some (Foreign 1 "signal: killed")).
Proof.
  intros ep.
  assert (H1 : "no database" <> "") by discriminate.
  assert (H2 : Is (Foreign 1 "signal: killed") (errReady ep) = false)
    by reflexivity.
  split; [exact H1|]. split; [exact H2|]. split.
  - exact (proj1 (proj2 (proj2 (C3_receiver_outcomes 5 2 true)))
             "no database" H1).
  - exact (proj1 (proj2 (proj2 (proj2 (C3_receiver_outcomes 5 0 false))))
             (Foreign 1 "signal: killed") H2).
Defined.

(** What stays true of an endpoint whose sentinel was allocated at [next]:
    the cause recorded in [rctx] is the sentinel only if a ready report has
    been handled ([b] remembers whether one has). *)
Lemma apply_op_sentinel next b o ep n :
  errReady ep = errorString next "ready" ->
  (next < n)%nat ->
  (forall e, rctx ep = Some e -> Is e (errReady ep) = true -> b = true) ->
  (forall c, o = ParentDone c -> Is c (errorString next "ready") = false) ->
  errReady (fst (apply_op o (ep, n))) = errorString next "ready"
  /\ (next < snd (apply_op o (ep, n)))%nat
  /\ (forall e, rctx (fst (apply_op o (ep, n))) = Some e ->
        Is e (errReady (fst (apply_op o (ep, n)))) = true ->
        b || is_ready_report o = true).
Proof.
  intros Hready Hlt Hinv Hpar.
  destruct ep as [ready rc]. cbn in Hready. subst ready.
  destruct o as [[data|id text]|c|]; cbn [apply_op fst snd].
  - unfold handler. cbn [is_ready_report].
    destruct (String.length data =? 0)%nat eqn:E; cbn [negb New fst snd].
    + split; [reflexivity|]. split; [exact Hlt|].
      intros _ _ _. apply orb_true_r.
    + split; [reflexivity|]. split; [lia|].
      intros e He Hi. rewrite orb_false_r.
      destruct rc as [e0|]; cbn in He, Hi.
      * injection He as <-. now apply (Hinv e0).
      * injection He as <-. rewrite Is_errorString_ne in Hi by lia.
        discriminate.
  - cbn. split; [reflexivity|]. split; [exact Hlt|].
    intros e He Hi. rewrite orb_false_r.
    destruct rc as [e0|]; cbn in He; injection He as <-.
    + now apply (Hinv e0).
    + cbn in Hi. discriminate.
  - cbn. split; [reflexivity|]. split; [exact Hlt|].
    intros e He Hi. rewrite orb_false_r.
    destruct rc as [e0|]; cbn in He; injection He as <-.
    + now apply (Hinv e0).
    + rewrite (Hpar c eq_refl) in Hi. discriminate.
  - cbn. split; [reflexivity|]. split; [exact Hlt|].
    intros e He Hi. rewrite orb_false_r.
    destruct rc as [e0|]; cbn in He; injection He as <-.
    + now apply (Hinv e0).
    + cbn in Hi. discriminate.
Qed.

Lemma apply_ops_sentinel next ops :
  forall b ep n,
    errReady ep = errorString next "ready" ->
    (next < n)%nat ->
    (forall e, rctx ep = Some e -> Is e (errReady ep) = true -> b = true) ->
    (forall c, In (ParentDone c) ops ->
               Is c (errorString next "ready") = false) ->
    errReady (fst (apply_ops ops (ep, n))) = errorString next "ready"
    /\ (forall e, rctx (fst (apply_ops ops (ep, n))) = Some e ->
          Is e (errorString next "ready") = true ->
          b || existsb is_ready_report ops = true).
Proof.
  induction ops as [|o ops IH]; intros b ep n Hready Hlt Hinv Hpar.
  - cbn. split; [exact Hready|]. intros e He Hi. rewrite orb_false_r.
    apply (Hinv e He). now rewrite Hready.
  - cbn [apply_ops foldl existsb].
    destruct (apply_op_sentinel next b o ep n Hready Hlt Hinv) as (H1 & H2 & H3).
    { intros c ->. apply Hpar. now left. }
    destruct (apply_op o (ep, n)) as [ep1 n1] eqn:E1. cbn [fst snd] in *.
    destruct (IH (b || is_ready_report o) ep1 n1 H1 H2 H3) as [H4 H5].
    { intros c Hc. apply Hpar. now right. }
    split; [exact H4|].
    intros e He Hi. rewrite orb_assoc. exact (H5 e He Hi).
Qed.

(** C10: (1) on a fresh endpoint, a report whose body is the text "ready"
    makes the waiter return an error whose message is "ready": the value
    built from the body is not the sentinel, though the texts agree.
    (2) Whatever happens to an endpoint (requests, cancellation of the
    parent, the closer), the waiter returns nil only if one of the requests
    had an empty body.  The causes that come from outside, through the
    parent or the caller's context, are values that are not the sentinel,
    which never leaves [Receiver]. *)
Theorem C10_success_is_the_sentinel (next k : nat) (pick : bool) :
  (exists e,
      snd <$> receiver
                (fst (handler (Body "ready") (snd (Receiver next None) + k)
                        (fst (Receiver next None)))) None pick
        = Some (Some e)
      /\ Error e = "ready"
      /\ e <> errReady (fst (Receiver next None)))
  /\ (forall parent caller ops ep',
        (forall c, parent = Some c -> below next c) ->
        (forall c, In (ParentDone c) ops ->
                   Is c (errorString next "ready") = false) ->
        (forall c, caller = Some c ->
                   Is c (errorString next "ready") = false) ->
        receiver (fst (apply_ops ops (Receiver next parent))) caller pick
          = Some (ep', None) ->
        existsb is_ready_report ops = true).
Proof.
  split.
  - exists (errorString (S next + k) "ready").
    rewrite Receiver_eq. cbn [fst snd handler String.length Nat.eqb negb New].
    unfold receiver. cbn [rcancel rctx cancel select2 errReady default
      from_option id].
    rewrite Is_errorString_ne by lia. cbn.
    split; [reflexivity|]. split; [reflexivity|]. intros [= Hp]. lia.
  - intros parent caller ops ep' Hparent Hops Hcaller Hrecv.
    rewrite Receiver_eq in Hrecv.
    destruct (apply_ops_sentinel next ops false
                (Endpoint (errorString next "ready") parent) (S next))
      as [Hready Hinv]; [reflexivity|lia| |exact Hops|].
    { cbn. intros e -> Hi. rewrite (Is_below next e) in Hi; [discriminate|].
      now apply Hparent. }
    cbn [orb] in Hinv.
    set (ep := fst (apply_ops ops
                      (Endpoint (errorString next "ready") parent, S next)))
      in *.
    unfold receiver in Hrecv. rewrite Hready in Hrecv.
    destruct caller as [c|], (rctx ep) as [e|] eqn:Hrc; cbn in Hrecv;
      try discriminate.
    + destruct pick.
      * rewrite (Hcaller c eq_refl) in Hrecv. discriminate.
      * destruct (Is e (errorString next "ready")) eqn:Hi; [|discriminate].
        exact (Hinv e eq_refl Hi).
    + rewrite (Hcaller c eq_refl) in Hrecv. discriminate.
    + destruct (Is e (errorString next "ready")) eqn:Hi; [|discriminate].
      exact (Hinv e eq_refl Hi).
Qed.

Lemma C10_success_is_the_sentinel_witness :
  let ops := [Request (Body "")] in
  let ep' := Endpoint (errorString 3 "ready") (Some (errorString 3 "ready")) in
  receiver (fst (apply_ops ops (Receiver 3 None))) None true = Some (ep', None)
  /\ existsb is_ready_report ops = true.
Proof.
  intros ops ep'.
  assert (Hr : receiver (fst (apply_ops ops (Receiver 3 None))) None true
               = Some (ep', None)) by reflexivity.
  split; [exact Hr|].
  refine (proj2 (C10_success_is_the_sentinel 3 0 true) None None ops ep'
            _ _ _ Hr).
  - intros c Hc. discriminate Hc.
  - intros c [Hc|[]]. discriminate Hc.
  - intros c Hc. discriminate Hc.
Defined.

(** ** No restart of a healthy child *)

Ltac simp_state :=
  cbn [st_pc st_i st_ctx st_cur st_next st_started st_watchers st_timer
       st_trace with_pc with_i with_ctx with_cur with_next with_started
       with_watchers with_timer emit at_id at_args at_childCtx at_ep
       with_childCtx with_ep finish_attempt] in *.

Ltac watch_simpl :=
  rewrite ?foldl_app; cbn [foldl watch_step].

(** Replaces the reader's state after the old trace by its four fields. *)
Ltac open_watch trace :=
  let m := fresh "m" in
  let Hm := fresh "Hm" in
  remember (foldl watch_step watch0 trace) as m eqn:Hm; clear Hm;
  destruct m as [mc mr ml mb];
  cbn [w_cur w_ready w_released w_bad] in *.

Lemma restart_inv_entry ctx next : restart_inv (loop_entry ctx next).
Proof.
  unfold restart_inv. cbn. repeat split; try discriminate.
Qed.

Lemma on_event_pc e s : st_pc (on_event e s) = st_pc s.
Proof.
  destruct e as [r|n status|cause|]; cbn [on_event].
  - destruct (st_cur s) as [a|]; [|reflexivity].
    destruct (handler r (st_next s) (at_ep a)). reflexivity.
  - case_bool_decide; [|reflexivity]. unfold child_exit.
    destruct (foreign status); simp_state;
      destruct (st_cur s); simp_state; try case_bool_decide; reflexivity.
  - destruct (Done (st_ctx s)); [reflexivity|]. unfold ctx_cancel. simp_state.
    destruct (st_cur s); reflexivity.
  - destruct (st_pc s) eqn:E; try assumption.
    destruct (st_timer s); simp_state; assumption.
Qed.

Lemma on_event_restart_inv e s : restart_inv s -> restart_inv (on_event e s).
Proof.
  unfold restart_inv, live_until_released.
  rewrite on_event_pc.
  destruct s as [p i ctx cur next started watchers timer trace].
  simp_state.
  intros (Hbad & Hrecv & Hwait & Hrest).
  destruct e as [r|n status|cause|]; cbn [on_event]; simp_state.
  - (* a request *)
    destruct cur as [a|].
    + destruct (handler r next (at_ep a)) as [ep' next'].
      simp_state. watch_simpl. open_watch trace.
      repeat split; try assumption.
      intros Hw. destruct (Hwait Hw) as (a0 & [= <-] & Hc & Hl).
      eexists. split; [reflexivity|]. simp_state. now split.
    + repeat split; assumption.
  - (* a child exits *)
    case_bool_decide as Hin; [|repeat split; assumption].
    unfold child_exit.
    destruct (foreign status) as [err|]; simp_state;
      (destruct cur as [a|]; simp_state;
       [case_bool_decide as Hid; simp_state|]);
      watch_simpl; open_watch trace;
      try (case_bool_decide as Hcur; cbn [w_cur w_ready w_released w_bad]);
      repeat split; try assumption; try (intros; reflexivity);
      try (intros Hw; destruct (Hwait Hw) as (a0 & Ha & Hc & Hl);
           first [discriminate Ha
                 | injection Ha as <-;
                   eexists; (split; [reflexivity|]); simp_state;
                   split; [assumption|]; intros;
                   first [discriminate|congruence|auto]]).
  - (* the outer context is cancelled *)
    destruct (Done ctx) eqn:Hd; [repeat split; assumption|].
    unfold ctx_cancel. simp_state.
    destruct cur as [a|]; simp_state; watch_simpl; open_watch trace;
      repeat split; try assumption; try (intros; reflexivity).
    all: intros Hw; destruct (Hwait Hw) as (a0 & Ha & Hc & Hl);
      first [discriminate Ha
            | injection Ha as <-;
              eexists; (split; [reflexivity|]); simp_state;
              split; [assumption|]; intros; discriminate].
  - (* the timer fires *)
    destruct p; try (repeat split; assumption).
    destruct timer; simp_state; [repeat split; assumption|].
    watch_simpl. open_watch trace. repeat split; assumption.
Qed.

Lemma on_sched_restart_inv cfg pick s :
  restart_inv s -> restart_inv (on_sched cfg pick s).
Proof.
  unfold restart_inv, live_until_released.
  destruct s as [p i ctx cur next started watchers timer trace].
  simp_state.
  intros (Hbad & Hrecv & Hwait & Hrest).
  destruct p; cbn [on_sched st_pc]; simp_state.
  - (* the loop guard and the start of a child *)
    unfold start_attempt. simp_state.
    destruct ctx as [c|]; cbn [Err]; simp_state.
    { repeat split; try assumption; discriminate. }
    destruct (Executable (cfg_world cfg) started) as [binPath|[id text]];
      simp_state; [|repeat split; try assumption; discriminate].
    destruct (Args (cfg_world cfg)) as [|arg0 rest]; simp_state;
      [repeat split; try assumption; discriminate|].
    rewrite Receiver_eq. simp_state. watch_simpl. open_watch trace.
    cbn [waiting] in *.
    repeat split.
    + rewrite Hbad. cbn. destruct mr, ml; try reflexivity.
      now specialize (Hrest eq_refl eq_refl).
    + intros _. eexists. split; [reflexivity|]. simp_state.
      split; [reflexivity|]. intros _. split; reflexivity.
    + discriminate.
  - (* the waiter *)
    destruct cur as [a|]; [|repeat split; assumption].
    unfold on_receive.
    destruct (receiver (at_ep a) (at_childCtx a) pick) as [[ep' [err|]]|];
      simp_state; [| |repeat split; assumption].
    + destruct (backoff (cfg_opts cfg) i) as [t|]; simp_state.
      * watch_simpl. open_watch trace. cbn [waiting] in *.
        repeat split; try assumption; try discriminate.
        intros _ Hr. rewrite (Hrecv eq_refl) in Hr. discriminate.
      * open_watch trace. cbn [waiting] in *.
        repeat split; try assumption; try discriminate.
        intros _ Hr. rewrite (Hrecv eq_refl) in Hr. discriminate.
    + watch_simpl. open_watch trace. cbn [waiting] in *.
      repeat split; try assumption; try discriminate.
      intros _. destruct (Hwait eq_refl) as (a0 & [= <-] & Hc & Hl).
      eexists. split; [reflexivity|]. simp_state. now split.
  - (* the backoff delay *)
    destruct (Done ctx || timer); simp_state; repeat split;
      try assumption; try discriminate; apply Hrest; reflexivity.
  - (* the healthy wait *)
    destruct cur as [a|]; [|repeat split; assumption].
    destruct (Done ctx || Done (at_childCtx a)) eqn:Hd; simp_state;
      [|repeat split; assumption].
    open_watch trace. cbn [waiting] in *.
    repeat split; try assumption; try discriminate.
    intros _ Hr. destruct (Hwait eq_refl) as (a0 & [= <-] & Hc & Hl).
    destruct ml; [reflexivity|].
    destruct (Hl eq_refl) as [-> Hcc]. rewrite Hcc in Hd. discriminate.
  - destruct watchers; simp_state; repeat split; try assumption;
      try discriminate; apply Hrest; reflexivity.
  - repeat split; assumption.
  - repeat split; assumption.
Qed.

Lemma run_restart_inv cfg ins :
  forall s, restart_inv s -> restart_inv (run cfg ins s).
Proof.
  induction ins as [|x ins IH]; intros s Hs; [exact Hs|].
  cbn [run foldl]. apply IH.
  destruct x as [e|pick]; cbn [step].
  - now apply on_event_restart_inv.
  - now apply on_sched_restart_inv.
Qed.

(** C4: in the trace of every run of the loop, no child is started while
    the previous one has reported readiness and neither its exit nor the
    cancellation of the outer context has been seen since it was started. *)
Theorem C4_no_restart_of_healthy_child cfg ctx next ins :
  no_spurious_restart (st_trace (run cfg ins (loop_entry ctx next))) = true.
Proof.
  unfold no_spurious_restart.
  destruct (run_restart_inv cfg ins _ (restart_inv_entry ctx next)) as [Hbad _].
  now rewrite Hbad.
Qed.



(** The reader does flag a trace in which a ready child is replaced without
    having exited. *)
Example restart_of_ready_child_is_flagged :
  no_spurious_restart
    [Start 0 (mkCmd [] [] 0 None); LogReady; Start 1 (mkCmd [] [] 0 None)]
  = false
  /\ no_spurious_restart
       [Start 0 (mkCmd [] [] 0 None); LogReady; Saw (ChildExit 0 None);
        Start 1 (mkCmd [] [] 0 None)]
     = true.
Proof. split; reflexivity. Qed.

(** While the child is healthy and both contexts are live, scheduling the
    loop changes nothing: it stays in the healthy wait. *)
Lemma healthy_wait_blocks cfg pick s a :
  st_pc s = Healthy -> st_cur s = Some a ->
  st_ctx s = None -> at_childCtx a = None ->
  on_sched cfg pick s = s.
Proof.
  intros Hpc Hcur Hctx Hchild. unfold on_sched.
  now rewrite Hpc, Hcur, Hctx, Hchild.
Qed.

(** In every run, the index is 0 throughout a healthy wait: by
    [healthy_leaves_with_index_one], the attempt that follows a healthy one
    starts with index 1. *)
Lemma on_event_i e s : st_i (on_event e s) = st_i s.
Proof.
  destruct e as [r|n status|cause|]; cbn [on_event].
  - destruct (st_cur s) as [a|]; [|reflexivity].
    destruct (handler r (st_next s) (at_ep a)). reflexivity.
  - case_bool_decide; [|reflexivity]. unfold child_exit.
    destruct (foreign status); simp_state;
      destruct (st_cur s); simp_state; try case_bool_decide; reflexivity.
  - destruct (Done (st_ctx s)); [reflexivity|]. unfold ctx_cancel. simp_state.
    destruct (st_cur s); reflexivity.
  - destruct (st_pc s); try reflexivity.
    destruct (st_timer s); reflexivity.
Qed.

Lemma healthy_index_zero cfg ins :
  forall s,
    (st_pc s = Healthy -> st_i s = 0) ->
    st_pc (run cfg ins s) = Healthy -> st_i (run cfg ins s) = 0.
Proof.
  induction ins as [|x ins IH]; intros s Hs; [exact Hs|].
  cbn [run foldl]. apply IH.
  destruct x as [e|pick]; cbn [step].
  - rewrite on_event_pc, on_event_i. exact Hs.
  - unfold on_sched.
    destruct (st_pc s) eqn:Hpc; try (intros H; congruence).
    + unfold start_attempt. destruct (Err (st_ctx s)); simp_state;
        [discriminate|].
      destruct (Executable (cfg_world cfg) (st_started s)) as [b|[id text]];
        simp_state; [|discriminate].
      destruct (Args (cfg_world cfg)); simp_state; [discriminate|].
      rewrite Receiver_eq. simp_state. discriminate.
    + destruct (st_cur s) as [a|]; [|intros H; congruence].
      unfold on_receive.
      destruct (receiver (at_ep a) (at_childCtx a) pick) as [[ep' [err|]]|];
        simp_state; [| |intros H; congruence].
      * destruct (backoff (cfg_opts cfg) (st_i s)); simp_state; discriminate.
      * reflexivity.
    + destruct (Done (st_ctx s) || st_timer s); simp_state;
        [discriminate|intros H; congruence].
    + destruct (st_cur s) as [a|]; [|intros _; now apply Hs].
      destruct (Done (st_ctx s) || Done (at_childCtx a)); simp_state;
        [discriminate|intros _; now apply Hs].
    + destruct (st_watchers s); simp_state;
        [discriminate|intros H; congruence].
Qed.

(** ** A child that exits before it reports *)

Lemma sentinel_inv_entry ctx next : sentinel_inv (loop_entry ctx next).
Proof. split; cbn; [discriminate|]. intros a Ha. discriminate Ha. Qed.

Lemma handler_rctx r n ep p :
  errReady ep = errorString p "ready" -> (p < n)%nat ->
  errReady (fst (handler r n ep)) = errReady ep
  /\ (n <= snd (handler r n ep))%nat
  /\ (forall e, rctx (fst (handler r n ep)) = Some e ->
        rctx ep = Some e
        \/ (e = errReady ep /\ exists data, r = Body data
                                 /\ (String.length data =? 0)%nat = true)
        \/ Is e (errReady ep) = false).
Proof.
  intros Hready Hlt. destruct ep as [ready rc]. cbn in Hready. subst ready.
  destruct r as [data|id text]; cbn [handler].
  - destruct (String.length data =? 0)%nat eqn:E; cbn [negb New fst snd].
    + split; [reflexivity|]. split; [lia|]. intros e He.
      destruct rc as [e0|]; cbn in He; injection He as <-.
      * now left.
      * right. left. split; [reflexivity|]. now exists data.
    + split; [reflexivity|]. split; [lia|]. intros e He.
      destruct rc as [e0|]; cbn in He; injection He as <-.
      * now left.
      * right. right. cbn [errReady]. apply Is_errorString_ne. lia.
  - cbn. split; [reflexivity|]. split; [lia|]. intros e He.
    destruct rc as [e0|]; cbn in He; injection He as <-.
    + now left.
    + right. right. reflexivity.
Qed.

Lemma Is_foreign_cause c p s :
  Is (default Canceled (foreign c)) (errorString p s) = false.
Proof. destruct c as [[id text]|]; reflexivity. Qed.

Lemma on_event_sentinel_inv e s : sentinel_inv s -> sentinel_inv (on_event e s).
Proof.
  unfold sentinel_inv, attempt_inv.
  rewrite on_event_pc.
  destruct s as [p i ctx cur next started watchers timer trace].
  simp_state.
  intros [Hsome Hatt].
  destruct e as [r|n status|cause|]; cbn [on_event]; simp_state.
  - (* a request *)
    destruct cur as [a|]; [|now split].
    destruct (Hatt a eq_refl) as ((q & Hq & Hlt) & Hchild & Hrc & Hrun).
    destruct (handler_rctx r next (at_ep a) q Hq Hlt) as (H1 & H2 & H3).
    destruct (handler r next (at_ep a)) as [ep' next'].
    cbn [fst snd] in *. simp_state.
    split; [intros _; eauto|].
    intros a' [= <-]. simp_state. rewrite H1.
    split; [exists q; split; [assumption|lia]|].
    split; [assumption|]. split; [|assumption].
    intros e He. destruct (H3 e He) as [H|[[H _]|H]]; auto.
  - (* a child exits *)
    case_bool_decide as Hin; [|now split].
    unfold child_exit.
    assert (Hcur : forall s0 : state,
      st_cur (match foreign status with
              | Some err => emit (LogDied n err) s0
              | None => s0
              end) = st_cur s0) by (intros; destruct (foreign status); reflexivity).
    destruct cur as [a|].
    + destruct (Hatt a eq_refl) as (Hq & Hchild & Hrc & Hrun).
      destruct (foreign status) as [err|] eqn:Hst; simp_state;
        case_bool_decide as Hid; simp_state;
        (split; [intros _; eauto|]);
        intros a' [= <-]; simp_state;
        (split; [assumption|]); (split; [|split; [assumption|]]).
      all: try assumption.
      all: try (intros e He; destruct (at_childCtx a) as [e0|] eqn:Hc;
                cbn in He; injection He as <-;
                [now apply Hchild
                |destruct Hq as (q & -> & _); first
                   [reflexivity
                   |destruct status as [[id text]|]; cbn in Hst;
                    [injection Hst as <-; reflexivity|discriminate]]]).
      all: intros Hp; try (right; now destruct (at_childCtx a)).
      all: destruct (Hrun Hp) as [Hw|Hd]; [left|now right].
      all: apply list_elem_of_filter; split; [congruence|assumption].
    + destruct (foreign status); simp_state; split; try assumption;
        intros a Ha; discriminate Ha.
  - (* the outer context is cancelled *)
    destruct ctx as [c|]; cbn [Done]; [now split|].
    unfold ctx_cancel. simp_state. cbn [cancel].
    destruct cur as [a|]; simp_state;
      [|split; [assumption|intros a Ha; discriminate Ha]].
    destruct (Hatt a eq_refl) as ((q & Hq & Hlt) & Hchild & Hrc & Hrun).
    split; [intros _; eauto|].
    intros a' [= <-]. simp_state. cbn [errReady rctx].
    split; [eauto|]. split; [|split].
    + intros e He. destruct (at_childCtx a) as [e0|]; cbn in He;
        injection He as <-; [now apply Hchild|].
      rewrite Hq. apply Is_foreign_cause.
    + intros e He. destruct (rctx (at_ep a)) as [e0|]; cbn in He;
        injection He as <-; [now apply Hrc|].
      right. rewrite Hq. apply Is_foreign_cause.
    + intros Hp. right. now destruct (at_childCtx a).
  - (* the timer fires *)
    destruct p; try (split; assumption).
    destruct timer; simp_state; (split; [assumption|]); exact Hatt.
Qed.

Lemma receiver_result ep c pick ep' r :
  receiver ep c pick = Some (ep', r) ->
  errReady ep' = errReady ep
  /\ (forall e, rctx ep' = Some e -> rctx ep = Some e \/ c = Some e)
  /\ (forall err, r = Some err ->
        Is err (errReady ep) = false /\ (c = Some err \/ rctx ep = Some err)).
Proof.
  unfold receiver. destruct ep as [ready rc]. cbn [rctx errReady].
  destruct c as [ec|], rc as [er|]; cbn [select2]; try discriminate.
  - destruct pick.
    + destruct (Is ec ready) eqn:Hi; cbn [negb]; intros [= <- <-];
        cbn; (split; [reflexivity|]); (split; [intros e [= <-]; auto|]);
        intros err Herr; try discriminate Herr; injection Herr as <-; auto.
    + destruct (Is er ready) eqn:Hi; cbn [negb]; intros [= <- <-];
        cbn; (split; [reflexivity|]); (split; [intros e [= <-]; auto|]);
        intros err Herr; try discriminate Herr; injection Herr as <-; auto.
  - destruct (Is ec ready) eqn:Hi; cbn [negb]; intros [= <- <-];
      cbn; (split; [reflexivity|]); (split; [intros e [= <-]; auto|]);
      intros err Herr; try discriminate Herr; injection Herr as <-; auto.
  - destruct (Is er ready) eqn:Hi; cbn [negb]; intros [= <- <-];
      cbn; (split; [reflexivity|]); (split; [intros e [= <-]; auto|]);
      intros err Herr; try discriminate Herr; injection Herr as <-; auto.
Qed.

Ltac keep_attempt Hatt :=
  let a := fresh "a" in
  let Ha := fresh "Ha" in
  intros a Ha; destruct (Hatt a Ha) as (? & ? & ? & ?);
  (split; [assumption|]); (split; [assumption|]); (split; [assumption|]);
  first [assumption | discriminate].

Lemma on_sched_sentinel_inv cfg pick s :
  sentinel_inv s -> sentinel_inv (on_sched cfg pick s).
Proof.
  unfold sentinel_inv, attempt_inv.
  destruct s as [p i ctx cur next started watchers timer trace].
  simp_state.
  intros [Hsome Hatt].
  destruct p; cbn [on_sched st_pc]; simp_state.
  - (* the loop guard and the start of a child *)
    unfold start_attempt. simp_state.
    destruct ctx as [c|]; cbn [Err]; simp_state;
      [split; [discriminate|keep_attempt Hatt]|].
    destruct (Executable (cfg_world cfg) started) as [binPath|[id text]];
      simp_state; [|split; [discriminate|keep_attempt Hatt]].
    destruct (Args (cfg_world cfg)) as [|arg0 rest]; simp_state;
      [split; [discriminate|keep_attempt Hatt]|].
    rewrite Receiver_eq. simp_state.
    split; [intros _; eauto|].
    intros a [= <-]. simp_state. cbn [errReady rctx WithCancelCause].
    split; [exists next; split; [reflexivity|lia]|].
    split; [intros e He; discriminate He|].
    split; [intros e He; discriminate He|].
    intros _. left. apply elem_of_cons. now left.
  - (* the waiter *)
    destruct cur as [a|]; [|split; assumption].
    destruct (Hatt a eq_refl) as (Hq & Hchild & Hrc & Hrun).
    unfold on_receive.
    destruct (receiver (at_ep a) (at_childCtx a) pick) as [[ep' r]|] eqn:Hrecv;
      simp_state; [|split; assumption].
    destruct (receiver_result _ _ _ _ _ Hrecv) as (H1 & H2 & H3).
    assert (Hrc' : forall e, rctx ep' = Some e ->
              e = errReady ep' \/ Is e (errReady ep') = false).
    { rewrite H1. intros e He. destruct (H2 e He) as [H|H]; [now apply Hrc|].
      right. now apply Hchild. }
    destruct r as [err|].
    + destruct (H3 err eq_refl) as [Hi _].
      assert (Hatt' : forall e,
                cancel (Some err) (at_childCtx a) = Some e ->
                Is e (errReady ep') = false).
      { rewrite H1. intros e He. destruct (at_childCtx a) as [e0|];
          cbn in He; injection He as <-; [now apply Hchild|assumption]. }
      destruct (backoff (cfg_opts cfg) i) as [t|]; simp_state;
        (split; [discriminate|]); intros a' [= <-]; simp_state;
        rewrite ?H1; (split; [assumption|]);
        (split; [rewrite <- H1; assumption|]);
        (split; [rewrite <- H1; assumption|discriminate]).
    + split; [discriminate|]. intros a' [= <-]. simp_state.
      rewrite H1. split; [assumption|]. split; [assumption|].
      split; [rewrite <- H1; assumption|discriminate].
  - (* the backoff delay *)
    destruct (Done ctx || timer); simp_state;
      [split; [discriminate|intros a Ha; discriminate Ha]|].
    split; [discriminate|]. exact Hatt.
  - (* the healthy wait *)
    destruct cur as [a|]; [|split; assumption].
    destruct (Done ctx || Done (at_childCtx a)); simp_state;
      [split; [discriminate|intros a' Ha; discriminate Ha]|].
    split; [discriminate|]. exact Hatt.
  - destruct watchers; simp_state; (split; [discriminate|]);
      keep_attempt Hatt.
  - split; assumption.
  - split; assumption.
Qed.

Lemma run_sentinel_inv cfg ins :
  forall s, sentinel_inv s -> sentinel_inv (run cfg ins s).
Proof.
  induction ins as [|x ins IH]; intros s Hs; [exact Hs|].
  cbn [run foldl]. apply IH.
  destruct x as [e|pick]; cbn [step].
  - now apply on_event_sentinel_inv.
  - now apply on_sched_sentinel_inv.
Qed.

Lemma awaiting_event n i b e s :
  awaiting n i b s -> is_ready_event e = false ->
  awaiting n i (b || is_exit_of n e) (on_event e s).
Proof.
  unfold awaiting. rewrite on_event_pc.
  destruct s as [p i0 ctx cur next started watchers timer trace].
  simp_state.
  intros (Hp & Hi & a & Hcur & Hid & (q & Hq & Hlt) & Hchild & Hrc & Hex) Hnr.
  subst p cur.
  destruct e as [r|m status|cause|]; cbn [on_event is_exit_of]; simp_state.
  - (* a request that is not a ready report *)
    rewrite orb_false_r.
    destruct (handler_rctx r next (at_ep a) q Hq Hlt) as (H1 & H2 & H3).
    destruct (handler r next (at_ep a)) as [ep' next'].
    cbn [fst snd] in *. simp_state.
    split; [reflexivity|]. split; [assumption|].
    eexists. split; [reflexivity|]. simp_state. rewrite H1.
    split; [assumption|]. split; [exists q; split; [assumption|lia]|].
    split; [assumption|]. split; [|assumption].
    intros e He. destruct (H3 e He) as [H|[[_ (data & -> & Hd)]|H]];
      [now apply Hrc| |assumption].
    cbn in Hnr. congruence.
  - (* a child exits *)
    case_bool_decide as Hin.
    + unfold child_exit.
      destruct (foreign status) as [err|] eqn:Hst; simp_state;
        case_bool_decide as Hm; simp_state;
        (split; [reflexivity|]); (split; [assumption|]);
        (eexists; split; [reflexivity|]); simp_state;
        (split; [assumption|]); (split; [eauto|]).
      all: try (rewrite bool_decide_eq_true_2 by congruence;
                rewrite orb_true_r;
                split; [|split; [assumption|now destruct (at_childCtx a)]];
                intros e He; destruct (at_childCtx a) as [e0|] eqn:Hc;
                cbn in He; injection He as <-;
                [now apply Hchild|rewrite Hq];
                first [reflexivity
                      |destruct status as [[id text]|]; cbn in Hst;
                       [injection Hst as <-; reflexivity|discriminate]]).
      all: rewrite bool_decide_eq_false_2 by congruence; rewrite orb_false_r;
        (split; [assumption|]); (split; [assumption|]);
        destruct b; [assumption|];
        destruct Hex as [Hw|Hd]; [left|now right];
        apply list_elem_of_filter; split; [congruence|assumption].
    + split; [reflexivity|]. split; [assumption|].
      eexists. split; [reflexivity|]. split; [assumption|].
      split; [eauto|]. split; [assumption|]. split; [assumption|].
      case_bool_decide as Hm; [|now rewrite orb_false_r].
      rewrite orb_true_r. subst m.
      destruct b; [assumption|]. destruct Hex as [Hw|Hd]; [contradiction|assumption].
  - (* the outer context is cancelled *)
    rewrite orb_false_r.
    destruct ctx as [c|]; cbn [Done].
    + split; [reflexivity|]. split; [assumption|].
      eexists. split; [reflexivity|]. repeat (split; [eauto|]). assumption.
    + unfold ctx_cancel. simp_state. cbn [cancel].
      split; [reflexivity|]. split; [assumption|].
      eexists. split; [reflexivity|]. simp_state. cbn [errReady rctx].
      split; [assumption|]. split; [eauto|]. split; [|split].
      * intros e He. destruct (at_childCtx a) as [e0|]; cbn in He;
          injection He as <-; [now apply Hchild|].
        rewrite Hq. apply Is_foreign_cause.
      * intros e He. destruct (rctx (at_ep a)) as [e0|]; cbn in He;
          injection He as <-; [now apply Hrc|].
        rewrite Hq. apply Is_foreign_cause.
      * destruct b; [now destruct (at_childCtx a)|].
        right. now destruct (at_childCtx a).
  - (* a timer: nothing is armed *)
    rewrite orb_false_r.
    split; [reflexivity|]. split; [assumption|].
    eexists. split; [reflexivity|]. repeat (split; [eauto|]). assumption.
Qed.

Lemma awaiting_events n i evs :
  forall b s,
    awaiting n i b s ->
    (forall e, In e evs -> is_ready_event e = false) ->
    awaiting n i (b || existsb (is_exit_of n) evs)
      (run_events evs s).
Proof.
  induction evs as [|e evs IH]; intros b s Hs Hnr.
  - cbn. now rewrite orb_false_r.
  - cbn [run_events foldl existsb]. rewrite orb_assoc.
    apply IH.
    + apply awaiting_event; [assumption|]. apply Hnr. now left.
    + intros e' He'. apply Hnr. now right.
Qed.

Lemma awaiting_sched cfg pick n i s :
  awaiting n i true s ->
  st_pc (on_sched cfg pick s)
  = match backoff (cfg_opts cfg) i with
    | Some t => Backoff t
    | None => Panicked
    end.
Proof.
  unfold awaiting.
  intros (Hp & Hi & a & Hcur & Hid & _ & Hchild & Hrc & Hex).
  unfold on_sched. rewrite Hp, Hcur. unfold on_receive.
  destruct (receiver (at_ep a) (at_childCtx a) pick) as [[ep' r]|] eqn:Hrecv.
  - destruct r as [err|].
    + simp_state. rewrite Hi.
      destruct (backoff (cfg_opts cfg) i); reflexivity.
    + exfalso. revert Hrecv. unfold receiver.
      destruct (at_childCtx a) as [ec|], (rctx (at_ep a)) as [er|];
        cbn [select2]; try discriminate.
      * destruct pick; [rewrite (Hchild ec eq_refl)|rewrite (Hrc er eq_refl)];
          discriminate.
      * rewrite (Hchild ec eq_refl). discriminate.
  - exfalso. revert Hrecv. unfold receiver.
    destruct (at_childCtx a) as [ec|]; [|discriminate Hex].
    destruct (rctx (at_ep a)) as [er|]; cbn [select2].
    + destruct (negb _); discriminate.
    + destruct (negb _); discriminate.
Qed.

Lemma run_app cfg l1 l2 s : run cfg (l1 ++ l2) s = run cfg l2 (run cfg l1 s).
Proof. unfold run. apply foldl_app. Qed.

Lemma run_happens cfg evs :
  forall s, run cfg (map Happens evs) s = run_events evs s.
Proof.
  induction evs as [|e evs IH]; intros s; [reflexivity|].
  cbn [map run foldl run_events step]. apply IH.
Qed.

(** C5: take any state a run of the loop reaches in which the waiter of the
    current child has not returned and no ready report has resolved the
    endpoint.  If the events that follow, up to the moment the waiter is
    scheduled, include the exit of that child (with any status, a clean
    exit too) and no ready report, the loop goes to the backoff wait, with
    the delay of the current index. *)
Theorem C5_exit_before_report_backs_off cfg ctx next ins evs pick a status :
  let s := run cfg ins (loop_entry ctx next) in
  st_pc s = Receiving ->
  st_cur s = Some a ->
  rctx (at_ep a) <> Some (errReady (at_ep a)) ->
  In (ChildExit (at_id a) status) evs ->
  (forall e, In e evs -> is_ready_event e = false) ->
  st_pc (run cfg (map Happens evs ++ [Sched pick]) s)
  = match backoff (cfg_opts cfg) (st_i s) with
    | Some t => Backoff t
    | None => Panicked
    end.
Proof.
  intros s Hpc Hcur Hnot Hexit Hnr.
  assert (Hinv : sentinel_inv s)
    by (apply run_sentinel_inv, sentinel_inv_entry).
  destruct Hinv as [_ Hatt].
  destruct (Hatt a Hcur) as (Hq & Hchild & Hrc & Hrun).
  assert (Haw : awaiting (at_id a) (st_i s) false s).
  { split; [assumption|]. split; [reflexivity|].
    exists a. split; [assumption|]. split; [reflexivity|].
    split; [assumption|]. split; [assumption|]. split; [|now apply Hrun].
    intros e He. destruct (Hrc e He) as [->|H]; [contradiction|assumption]. }
  rewrite run_app, run_happens. cbn [run foldl step].
  apply (awaiting_sched cfg pick (at_id a)).
  pose proof (awaiting_events (at_id a) (st_i s) evs false s Haw Hnr) as H.
  replace (false || existsb (is_exit_of (at_id a)) evs) with true in H;
    [exact H|].
  symmetry. apply existsb_exists. exists (ChildExit (at_id a) status).
  split; [assumption|]. cbn. now apply bool_decide_eq_true_2.
Qed.

Lemma C5_exit_before_report_backs_off_witness :
  let s := run sample.cfg [Sched true] (loop_entry None 0) in
  let a := mkAttempt 0 ["/usr/bin/prog"; "-self-monitor"] None
             (Endpoint (errorString 0 "ready") None) in
  let evs := [Posted (Body "starting"); ChildExit 0 None] in
  st_pc s = Receiving
  /\ st_cur s = Some a
  /\ rctx (at_ep a) <> Some (errReady (at_ep a))
  /\ In (ChildExit (at_id a) None) evs
  /\ (forall e, In e evs -> is_ready_event e = false)
  /\ st_pc (run sample.cfg (map Happens evs ++ [Sched false]) s)
     = match backoff (cfg_opts sample.cfg) (st_i s) with
       | Some t => Backoff t
       | None => Panicked
       end.
Proof.
  intros s a evs.
  assert (H1 : st_pc s = Receiving) by reflexivity.
  assert (H2 : st_cur s = Some a) by reflexivity.
  assert (H3 : rctx (at_ep a) <> Some (errReady (at_ep a))) by discriminate.
  assert (H4 : In (ChildExit (at_id a) None) evs) by (right; left; reflexivity).
  assert (H5 : forall e, In e evs -> is_ready_event e = false).
  { intros e [<-|[<-|[]]]; reflexivity. }
  split; [exact H1|]. split; [exact H2|]. split; [exact H3|].
  split; [exact H4|]. split; [exact H5|].
  exact (C5_exit_before_report_backs_off sample.cfg None 0 [Sched true] evs
           false a None H1 H2 H3 H4 H5).
Defined.

(** A clean exit before any report, from the start of a call: one second of
    backoff, no "initialized" message. *)
Example clean_exit_backs_off :
  let s := run sample.cfg
             [Sched true; Happens (ChildExit 0 None); Sched true]
             (loop_entry None 0) in
  st_pc s = Backoff Second /\ delays (st_trace s) = [Second]
  /\ ~ In LogReady (st_trace s).
Proof.
  cbn zeta. split; [reflexivity|]. split; [reflexivity|].
  vm_compute. intros [H|[H|[H|[]]]]; discriminate H.
Qed.

(** The hypothesis of C5 on the events matters: when a ready report reaches
    the endpoint after the exit but before the waiter is scheduled, both
    cases of its [select] are ready and the random choice can be the
    report. *)
Example report_between_exit_and_wakeup :
  let ins := [Sched true; Happens (ChildExit 0 None);
              Happens (Posted (Body ""))] in
  st_pc (run sample.cfg (ins ++ [Sched false]) (loop_entry None 0)) = Healthy
  /\ st_pc (run sample.cfg (ins ++ [Sched true]) (loop_entry None 0))
     = Backoff Second.
Proof. split; reflexivity. Qed.

(** * Further properties *)

(** ** Reports and endpoints *)

Lemma apply_op_resolved o ep n e :
  rctx ep = Some e ->
  rctx (fst (apply_op o (ep, n))) = Some e
  /\ errReady (fst (apply_op o (ep, n))) = errReady ep.
Proof.
  intros He. destruct ep as [ready rc]. cbn in He. subst rc.
  destruct o as [[data|id text]|c|]; cbn [apply_op fst snd].
  - unfold handler. destruct (String.length data =? 0)%nat; cbn; now split.
  - cbn. now split.
  - cbn. now split.
  - cbn. now split.
Qed.

Lemma apply_ops_resolved ops :
  forall ep n e,
    rctx ep = Some e ->
    rctx (fst (apply_ops ops (ep, n))) = Some e
    /\ errReady (fst (apply_ops ops (ep, n))) = errReady ep.
Proof.
  unfold apply_ops.
  induction ops as [|o ops IH]; intros ep n e He; [now split|].
  cbn [foldl].
  destruct (apply_op_resolved o ep n e He) as [H1 H2].
  destruct (apply_op o (ep, n)) as [ep1 n1]. cbn [fst] in *.
  destruct (IH ep1 n1 e H1) as [H3 H4]. split; [exact H3|congruence].
Qed.

Lemma outcome_of_resolved ep e pick :
  rctx ep = Some e ->
  outcome_of ep pick
  = Some (if Is e (errReady ep) then None else Some e).
Proof.
  intros He. unfold outcome_of, receiver. rewrite He. cbn [select2].
  destruct (Is e (errReady ep)); reflexivity.
Qed.

(** The outcome for a waiter after one body was delivered to an endpoint
    that nothing had resolved. *)
Lemma fresh_outcome next k b pick :
  outcome_of (fst (deliver [b] (fst (Receiver next None), (S next + k)%nat)))
    pick
  = Some (if (String.length b =? 0)%nat then None
          else Some (errorString (S next + k) b)).
Proof.
  rewrite Receiver_eq. cbn [fst deliver map apply_ops foldl apply_op snd].
  unfold handler.
  destruct (String.length b =? 0)%nat eqn:E; cbn [negb New fst].
  - rewrite (outcome_of_resolved _ (errorString next "ready")) by reflexivity.
    cbn [errReady rcancel]. rewrite Is_errorString.
    now rewrite bool_decide_eq_true_2.
  - rewrite (outcome_of_resolved _ (errorString (S next + k) b))
      by reflexivity.
    cbn [errReady rcancel]. now rewrite Is_errorString_ne by lia.
Qed.

Lemma Report_bodies net addr status bodies err :
  Report net addr status = (bodies, err) ->
  bodies = [] \/ bodies = [report_body status].
Proof.
  unfold Report. case_bool_decide; [intros [= <- _]; now left|].
  destruct (net_request net) as [[id text]|]; [intros [= <- _]; now left|].
  destruct (net_do net) as [|[] id text]; intros [= <- _]; auto.
Qed.

(** A report of a nil status that reaches a fresh endpoint makes the waiter
    return nil. *)
Theorem report_of_success_round_trip net addr next k pick bodies err :
  Report net addr None = (bodies, err) ->
  bodies <> [] ->
  outcome_of (fst (deliver bodies (fst (Receiver next None),
                                   (S next + k)%nat))) pick
  = Some None.
Proof.
  intros HR Hne.
  destruct (Report_bodies _ _ _ _ _ HR) as [->| ->]; [contradiction|].
  now rewrite fresh_outcome.
Qed.

(** A report of a failure whose message is not empty makes the waiter return
    an error with that message. *)
Theorem report_of_failure_round_trip net addr status next k pick bodies err :
  Report net addr (Some status) = (bodies, err) ->
  bodies <> [] ->
  Error status <> "" ->
  exists e,
    outcome_of (fst (deliver bodies (fst (Receiver next None),
                                     (S next + k)%nat))) pick
    = Some (Some e)
    /\ Error e = Error status.
Proof.
  intros HR Hne Hmsg.
  destruct (Report_bodies _ _ _ _ _ HR) as [->| ->]; [contradiction|].
  rewrite fresh_outcome. cbn [report_body].
  destruct (String.length (Error status) =? 0)%nat eqn:E;
    [apply length_zero_iff in E; contradiction|].
  eexists. split; reflexivity.
Qed.

Lemma report_of_failure_round_trip_witness :
  let net := mkNetwork None Answered in
  let status := wrapError "open db: locked" (Foreign 4 "locked") in
  Report net "http://127.0.0.1:7" (Some status) = (["open db: locked"], None)
  /\ ["open db: locked"] <> []
  /\ Error status <> ""
  /\ exists e,
      outcome_of (fst (deliver ["open db: locked"]
                         (fst (Receiver 2 None), (S 2 + 1)%nat))) true
      = Some (Some e)
      /\ Error e = Error status.
Proof.
  intros net status.
  assert (H1 : Report net "http://127.0.0.1:7" (Some status)
               = (["open db: locked"], None)) by reflexivity.
  assert (H2 : ["open db: locked"] <> []) by discriminate.
  assert (H3 : Error status <> "") by discriminate.
  split; [exact H1|]. split; [exact H2|]. split; [exact H3|].
  exact (report_of_failure_round_trip net "http://127.0.0.1:7" status 2 1 true
           ["open db: locked"] None H1 H2 H3).
Defined.

(** A failure whose message is the empty string is posted with an empty
    body, which the handler takes for the ready report: the waiter returns
    nil. *)
Theorem report_of_failure_without_message net addr status next k pick bodies err :
  Report net addr (Some status) = (bodies, err) ->
  bodies <> [] ->
  Error status = "" ->
  outcome_of (fst (deliver bodies (fst (Receiver next None),
                                   (S next + k)%nat))) pick
  = Some None.
Proof.
  intros HR Hne Hmsg.
  destruct (Report_bodies _ _ _ _ _ HR) as [->| ->]; [contradiction|].
  rewrite fresh_outcome. cbn [report_body]. now rewrite Hmsg.
Qed.

Lemma report_of_failure_without_message_witness :
  let net := mkNetwork None Answered in
  let status := errorString 0 "" in
  Report net "http://127.0.0.1:7" (Some status) = ([""], None)
  /\ [""] <> []
  /\ Error status = ""
  /\ outcome_of (fst (deliver [""] (fst (Receiver 2 None), (S 2 + 0)%nat)))
       false
     = Some None.
Proof.
  intros net status.
  assert (H1 : Report net "http://127.0.0.1:7" (Some status) = ([""], None))
    by reflexivity.
  assert (H2 : [""] <> []) by discriminate.
  assert (H3 : Error status = "") by reflexivity.
  split; [exact H1|]. split; [exact H2|]. split; [exact H3|].
  exact (report_of_failure_without_message net "http://127.0.0.1:7" status
           2 0 false [""] None H1 H2 H3).
Defined.

Lemma report_of_success_round_trip_witness :
  let net := mkNetwork None (Failed true 9 "EOF") in
  Report net "http://127.0.0.1:7" None = ([""], Some (Foreign 9 "EOF"))
  /\ [""] <> []
  /\ outcome_of (fst (deliver [""] (fst (Receiver 2 None), (S 2 + 5)%nat)))
       true
     = Some None.
Proof.
  intros net.
  assert (H1 : Report net "http://127.0.0.1:7" None
               = ([""], Some (Foreign 9 "EOF"))) by reflexivity.
  assert (H2 : [""] <> []) by discriminate.
  split; [exact H1|]. split; [exact H2|].
  exact (report_of_success_round_trip net "http://127.0.0.1:7" 2 5 true
           [""] (Some (Foreign 9 "EOF")) H1 H2).
Defined.

(** [Report] fails only through the network: it returns nil exactly when
    the address is empty or the request was built and answered, whatever
    the status is; with an empty address it sends nothing; and it never
    sends more than one request. *)
Theorem Report_fails_only_through_network net addr status :
  (snd (Report net addr status) = None
   <-> addr = "" \/ (net_request net = None /\ net_do net = Answered))
  /\ (addr = "" -> Report net addr status = ([], None))
  /\ (length (fst (Report net addr status)) <= 1)%nat
  /\ snd (Report net addr status) = snd (Report net addr None).
Proof.
  unfold Report. case_bool_decide as Ha.
  - repeat split; auto.
  - destruct (net_request net) as [[id text]|];
      [|destruct (net_do net) as [|[] id text]]; cbn;
      repeat split; try (intros H; discriminate H); try contradiction;
      try lia; try (intros [H|[H1 H2]]; first [contradiction|discriminate]);
      auto.
Qed.

Lemma outcome_after_ops ep n e ops pick :
  rctx ep = Some e ->
  outcome_of (fst (apply_ops ops (ep, n))) pick
  = Some (if Is e (errReady ep) then None else Some e).
Proof.
  intros He. destruct (apply_ops_resolved ops ep n e He) as [H1 H2].
  rewrite (outcome_of_resolved _ e) by exact H1. now rewrite H2.
Qed.

Lemma Report_fails_only_through_network_witness :
  let net := mkNetwork (Some (1%nat, "invalid URL")) (Failed false 2 "refused") in
  "" = ""
  /\ Report net "" (Some ErrClosed) = ([], None)
  /\ snd (Report net "" (Some ErrClosed)) = None.
Proof.
  intros net.
  assert (H : "" = "") by reflexivity.
  split; [exact H|].
  destruct (Report_fails_only_through_network net "" (Some ErrClosed))
    as (H1 & H2 & _).
  split; [exact (H2 H)|].
  apply H1. left. exact H.
Defined.

(** Once an endpoint is resolved, nothing that happens to it afterwards
    (further requests, the closer, the cancellation of the parent) changes
    what a waiter gets. *)
Theorem resolved_endpoint_is_final ep n e ops pick :
  rctx ep = Some e ->
  outcome_of (fst (apply_ops ops (ep, n))) pick = outcome_of ep pick.
Proof.
  intros He.
  rewrite (outcome_after_ops ep n e ops pick He).
  symmetry. now apply outcome_of_resolved.
Qed.

Lemma resolved_endpoint_is_final_witness :
  let ep := Endpoint (errorString 0 "ready") (Some (errorString 0 "ready")) in
  rctx ep = Some (errorString 0 "ready")
  /\ outcome_of (fst (apply_ops [Request (Body "late failure"); Close]
                        (ep, 1%nat))) true
     = outcome_of ep true.
Proof.
  intros ep.
  assert (H : rctx ep = Some (errorString 0 "ready")) by reflexivity.
  split; [exact H|].
  exact (resolved_endpoint_is_final ep 1 (errorString 0 "ready")
           [Request (Body "late failure"); Close] true H).
Defined.

(** What a waiter returned stays the outcome of the endpoint, provided the
    waiter did not have to choose between two ready cases: the [rcancel]
    of the waiter records its result.  In particular a waiter that gave up
    because its own context was cancelled resolves the endpoint with that
    cause, and a report that arrives later is not seen by anyone. *)
Theorem waiter_result_is_final ep c pick ep' r n ops pick' :
  receiver ep c pick = Some (ep', r) ->
  rctx ep = None \/ c = None ->
  outcome_of (fst (apply_ops ops (ep', n))) pick' = Some r.
Proof.
  intros Hrecv Hone. revert Hrecv. unfold receiver.
  destruct ep as [ready rc]. cbn [rctx errReady] in *.
  destruct c as [ec|], rc as [er|]; cbn [select2];
    try discriminate; try (destruct Hone; discriminate).
  - clear Hone.
    destruct (Is ec ready) eqn:Hi; cbn [negb]; intros [= <- <-];
      rewrite (outcome_after_ops _ n ec) by reflexivity;
      cbn [errReady rcancel]; now rewrite Hi.
  - clear Hone.
    destruct (Is er ready) eqn:Hi; cbn [negb]; intros [= <- <-];
      rewrite (outcome_after_ops _ n er) by reflexivity;
      cbn [errReady rcancel]; now rewrite Hi.
Qed.

Lemma waiter_result_is_final_witness :
  let ep := fst (Receiver 0 None) in
  let gone := Foreign 3 "deadline" in
  let ep' := Endpoint (errorString 0 "ready") (Some gone) in
  receiver ep (Some gone) true = Some (ep', Some gone)
  /\ (rctx ep = None \/ Some gone = None)
  /\ outcome_of (fst (apply_ops [Request (Body "")] (ep', 1%nat))) false
     = Some (Some gone).
Proof.
  intros ep gone ep'.
  assert (H1 : receiver ep (Some gone) true = Some (ep', Some gone))
    by reflexivity.
  assert (H2 : rctx ep = None \/ Some gone = None) by (left; reflexivity).
  split; [exact H1|]. split; [exact H2|].
  exact (waiter_result_is_final ep (Some gone) true ep' (Some gone) 1
           [Request (Body "")] false H1 H2).
Defined.

(** When both cases of the [select] were ready, the waiter can return the
    caller's cause while the endpoint keeps the report. *)
Example waiter_choice_is_not_recorded :
  let ep := Endpoint (errorString 0 "ready") (Some (errorString 0 "ready")) in
  exists ep',
    receiver ep (Some Canceled) true = Some (ep', Some Canceled)
    /\ outcome_of ep' true = Some None.
Proof. eexists. split; reflexivity. Qed.

(** An endpoint created under a parent context that is already done is
    resolved from the start: whatever happens to it, a waiter returns the
    cause of the parent, and no report is ever seen. *)
Theorem endpoint_of_done_parent next c ops pick :
  below next c ->
  outcome_of (fst (apply_ops ops (Receiver next (Some c)))) pick
  = Some (Some c).
Proof.
  intros Hb. rewrite Receiver_eq.
  rewrite (outcome_after_ops _ (S next) c) by reflexivity.
  cbn [errReady]. now rewrite Is_below.
Qed.

Lemma endpoint_of_done_parent_witness :
  below 6 (errorString 2 "shutting down")
  /\ outcome_of (fst (apply_ops [Request (Body ""); Close]
                        (Receiver 6 (Some (errorString 2 "shutting down")))))
       true
     = Some (Some (errorString 2 "shutting down")).
Proof.
  assert (H : below 6 (errorString 2 "shutting down")) by (cbn; lia).
  split; [exact H|].
  exact (endpoint_of_done_parent 6 (errorString 2 "shutting down")
           [Request (Body ""); Close] true H).
Defined.

(** On an endpoint that nothing has resolved, the cancellation of the
    parent context makes waiters return the parent's cause, and a request
    whose body cannot be read makes them return the read error; later
    events change neither. *)
Theorem failure_without_report next k c id text ops pick :
  Is c (errorString next "ready") = false ->
  outcome_of (fst (apply_ops (ParentDone c :: ops)
                     (fst (Receiver next None), (S next + k)%nat))) pick
  = Some (Some c)
  /\ outcome_of (fst (apply_ops (Request (ReadError id text) :: ops)
                        (fst (Receiver next None), (S next + k)%nat))) pick
     = Some (Some (Foreign id text)).
Proof.
  intros Hc. rewrite Receiver_eq. cbn [fst apply_ops foldl apply_op snd].
  split.
  - etransitivity; [apply (outcome_after_ops _ _ c); reflexivity|].
    cbn [parent_done errReady]. now rewrite Hc.
  - etransitivity;
      [apply (outcome_after_ops _ _ (Foreign id text)); reflexivity|].
    reflexivity.
Qed.

Lemma failure_without_report_witness :
  Is Canceled (errorString 0 "ready") = false
  /\ outcome_of (fst (apply_ops [ParentDone Canceled; Request (Body "")]
                        (fst (Receiver 0 None), (S 0 + 0)%nat))) true
     = Some (Some Canceled)
  /\ outcome_of (fst (apply_ops [Request (ReadError 1 "reset"); Close]
                        (fst (Receiver 0 None), (S 0 + 0)%nat))) true
     = Some (Some (Foreign 1 "reset")).
Proof.
  assert (H : Is Canceled (errorString 0 "ready") = false) by reflexivity.
  split; [exact H|].
  exact (failure_without_report 0 0 Canceled 1 "reset" _ true H).
Defined.

(** ** Every run of the loop *)

Local Open Scope list_scope.

Lemma run_invariant (P : state -> Prop) cfg :
  (forall s e, P s -> P (on_event e s)) ->
  (forall s pick, P s -> P (on_sched cfg pick s)) ->
  forall ins s, P s -> P (run cfg ins s).
Proof.
  intros He Hs. induction ins as [|x ins IH]; intros s HP; [exact HP|].
  cbn [run foldl]. apply IH. destruct x as [e|pick]; cbn [step]; auto.
Qed.

(** What a step appends to the trace. *)
Lemma on_event_trace e s :
  st_trace (on_event e s) = st_trace s
  \/ st_trace (on_event e s) = st_trace s ++ [Saw e]
  \/ exists n err,
       st_trace (on_event e s) = st_trace s ++ [Saw e; LogDied n err].
Proof.
  destruct e as [r|n status|cause|]; cbn [on_event].
  - destruct (st_cur s) as [a|]; [|now left].
    destruct (handler r (st_next s) (at_ep a)). right. left. reflexivity.
  - case_bool_decide; [|now left]. unfold child_exit.
    destruct (foreign status) as [err|]; simp_state;
      destruct (st_cur s) as [a|]; simp_state; try case_bool_decide;
      simp_state; rewrite <- ?app_assoc; cbn [app]; eauto.
  - destruct (Done (st_ctx s)); [now left|]. unfold ctx_cancel. simp_state.
    destruct (st_cur s); simp_state; auto.
  - destruct (st_pc s); auto. destruct (st_timer s); simp_state; auto.
Qed.

Lemma on_sched_trace cfg pick s :
  st_trace (on_sched cfg pick s) = st_trace s
  \/ (exists path rest,
        st_pc s = LoopHead /\ st_ctx s = None
        /\ Executable (cfg_world cfg) (st_started s) = inl path
        /\ Args (cfg_world cfg) = rest
        /\ rest <> []
        /\ st_started (on_sched cfg pick s) = S (st_started s)
        /\ st_trace (on_sched cfg pick s)
           = st_trace s ++ [Start (st_started s)
                              (child_command cfg (st_started s) path)])
  \/ (exists a d,
        st_pc s = Receiving /\ st_cur s = Some a
        /\ backoff (cfg_opts cfg) (st_i s) = Some d
        /\ st_pc (on_sched cfg pick s) = Backoff d
        /\ st_trace (on_sched cfg pick s)
           = st_trace s ++ [LogBackoff d (at_args a)])
  \/ (exists a ep',
        st_pc s = Receiving /\ st_cur s = Some a
        /\ receiver (at_ep a) (at_childCtx a) pick = Some (ep', None)
        /\ st_pc (on_sched cfg pick s) = Healthy
        /\ st_trace (on_sched cfg pick s) = st_trace s ++ [LogReady]).
Proof.
  unfold on_sched. destruct (st_pc s) eqn:Hpc; auto.
  - unfold start_attempt.
    destruct (st_ctx s) as [c|] eqn:Hctx; cbn [Err]; [now left|].
    destruct (Executable (cfg_world cfg) (st_started s)) as [path|[id text]]
      eqn:Hexe; [|now left].
    destruct (Args (cfg_world cfg)) as [|arg0 rest] eqn:Hargs; [now left|].
    right. left. exists path, (arg0 :: rest).
    rewrite Receiver_eq. simp_state.
    repeat (split; [first [reflexivity|assumption|discriminate]|]).
    unfold child_command. now rewrite Hargs.
  - destruct (st_cur s) as [a|] eqn:Hcur; [|now left].
    unfold on_receive.
    destruct (receiver (at_ep a) (at_childCtx a) pick) as [[ep' [err|]]|]
      eqn:Hrecv; simp_state; [| |now left].
    + destruct (backoff (cfg_opts cfg) (st_i s)) as [d|] eqn:Hb; simp_state;
        [|now left].
      right. right. left. exists a, d. repeat split; auto.
    + right. right. right. exists a, ep'. repeat split; auto.
  - destruct (Done (st_ctx s) || st_timer s); simp_state; now left.
  - destruct (st_cur s) as [a|]; [|now left].
    destruct (Done (st_ctx s) || Done (at_childCtx a)); simp_state; now left.
  - destruct (st_watchers s); simp_state; now left.
Qed.

Lemma starts_app t1 t2 : starts (t1 ++ t2) = starts t1 ++ starts t2.
Proof. apply omap_app. Qed.

Lemma delays_app t1 t2 : delays (t1 ++ t2) = delays t1 ++ delays t2.
Proof. apply omap_app. Qed.

Lemma on_event_started e s : st_started (on_event e s) = st_started s.
Proof.
  destruct e as [r|n status|cause|]; cbn [on_event].
  - destruct (st_cur s) as [a|]; [|reflexivity].
    destruct (handler r (st_next s) (at_ep a)). reflexivity.
  - case_bool_decide; [|reflexivity]. unfold child_exit.
    destruct (foreign status); simp_state;
      destruct (st_cur s); simp_state; try case_bool_decide; reflexivity.
  - destruct (Done (st_ctx s)); [reflexivity|]. unfold ctx_cancel. simp_state.
    destruct (st_cur s); reflexivity.
  - destruct (st_pc s); try reflexivity.
    destruct (st_timer s); reflexivity.
Qed.

Lemma on_sched_started cfg pick s :
  st_trace (on_sched cfg pick s) = st_trace s
  \/ st_pc s = Receiving ->
  st_started (on_sched cfg pick s) = st_started s.
Proof.
  unfold on_sched. destruct (st_pc s) eqn:Hpc; intros H; try reflexivity.
  - unfold start_attempt in *.
    destruct (Err (st_ctx s)); [reflexivity|].
    destruct (Executable (cfg_world cfg) (st_started s)) as [path|[id text]];
      [|reflexivity].
    destruct (Args (cfg_world cfg)); [reflexivity|].
    exfalso. revert H. rewrite Receiver_eq. simp_state.
    intros [H|H]; [|discriminate].
    apply (f_equal length) in H. rewrite length_app in H. cbn in H. lia.
  - destruct (st_cur s) as [a|]; [|reflexivity]. unfold on_receive.
    destruct (receiver (at_ep a) (at_childCtx a) pick) as [[ep' [err|]]|];
      simp_state; try reflexivity.
    destruct (backoff (cfg_opts cfg) (st_i s)); reflexivity.
  - destruct (Done (st_ctx s) || st_timer s); reflexivity.
  - destruct (st_cur s) as [a|]; [|reflexivity].
    destruct (Done (st_ctx s) || Done (at_childCtx a)); reflexivity.
  - destruct (st_watchers s); reflexivity.
Qed.

(** In every run the children are numbered 0, 1, 2, ... in the order in
    which they are started, and each one is started with the command the
    code builds: the path of the executable in place of argv[0], the other
    arguments of this process, the whole environment of this process with
    envKey=URL appended, the configured grace delay and signal. *)
Theorem children_started_as_configured cfg ctx next ins :
  let s := run cfg ins (loop_entry ctx next) in
  starts (st_trace s) = seq 0 (st_started s)
  /\ Forall (start_as_configured cfg) (st_trace s).
Proof.
  cbn zeta.
  apply (run_invariant
           (fun s => starts (st_trace s) = seq 0 (st_started s)
                     /\ Forall (start_as_configured cfg) (st_trace s)) cfg).
  - intros s e [Hn Hf]. rewrite on_event_started.
    destruct (on_event_trace e s) as [->|[->|(n & err & ->)]].
    + now split.
    + rewrite starts_app, Forall_app. cbn. rewrite app_nil_r.
      split; [exact Hn|]. split; [exact Hf|]. now repeat constructor.
    + rewrite starts_app, Forall_app. cbn. rewrite app_nil_r.
      split; [exact Hn|]. split; [exact Hf|]. now repeat constructor.
  - intros s pick [Hn Hf].
    destruct (on_sched_trace cfg pick s)
      as [Ht|[(path & rest & Hpc & Hctx & Hexe & Hargs & Hne & Hst & Ht)
             |[(a & d & Hpc & Hcur & Hb & Hpc' & Ht)
              |(a & ep' & Hpc & Hcur & Hr & Hpc' & Ht)]]].
    + rewrite on_sched_started by now left. rewrite Ht. now split.
    + rewrite Ht, Hst, starts_app, Forall_app, seq_S. cbn.
      split; [now rewrite Hn|]. split; [exact Hf|].
      constructor; [|constructor]. exists path. now split.
    + rewrite on_sched_started by now right.
      rewrite Ht, starts_app, Forall_app. cbn. rewrite app_nil_r.
      split; [exact Hn|]. split; [exact Hf|]. now repeat constructor.
    + rewrite on_sched_started by now right.
      rewrite Ht, starts_app, Forall_app. cbn. rewrite app_nil_r.
      split; [exact Hn|]. split; [exact Hf|]. now repeat constructor.
  - split; [reflexivity|constructor].
Qed.

(** Every delay the loop logs and waits for is at most the configured
    maximum, at every index, wrap-around included. *)
Theorem delays_never_exceed_max cfg ctx next ins :
  Forall (fun d => d <= MaxBackoffTimeout (cfg_opts cfg))
    (delays (st_trace (run cfg ins (loop_entry ctx next)))).
Proof.
  apply (run_invariant
           (fun s => Forall (fun d => d <= MaxBackoffTimeout (cfg_opts cfg))
                       (delays (st_trace s))) cfg).
  - intros s e Hf.
    destruct (on_event_trace e s) as [->|[->|(n & err & ->)]];
      rewrite ?delays_app; cbn; rewrite ?app_nil_r; exact Hf.
  - intros s pick Hf.
    destruct (on_sched_trace cfg pick s)
      as [->|[(path & rest & _ & _ & _ & _ & _ & _ & ->)
             |[(a & d & _ & _ & Hb & _ & ->)
              |(a & ep' & _ & _ & _ & _ & ->)]]];
      rewrite ?delays_app; cbn; rewrite ?app_nil_r; try exact Hf.
    apply Forall_app. split; [exact Hf|]. constructor; [|constructor].
    unfold backoff in Hb.
    destruct (shl64 (MinBackoffTimeout (cfg_opts cfg)) (st_i s));
      [|discriminate].
    injection Hb as <-. apply Z.le_min_r.
  - constructor.
Qed.

Lemma index_entry cfg ctx next : index_inv cfg (loop_entry ctx next).
Proof. split; reflexivity. Qed.

Lemma on_event_index_inv cfg e s : index_inv cfg s -> index_inv cfg (on_event e s).
Proof.
  unfold index_inv. rewrite on_event_pc, on_event_i.
  destruct (on_event_trace e s) as [->|[->|(n & err & ->)]];
    rewrite ?foldl_app; cbn [foldl index_step]; auto.
Qed.

Lemma on_sched_index_inv cfg pick s :
  index_inv cfg s -> index_inv cfg (on_sched cfg pick s).
Proof.
  unfold index_inv.
  destruct s as [p i ctx cur next started watchers timer trace].
  simp_state.
  remember (foldl (index_step (cfg_opts cfg)) (mkIndexWatch 0 true) trace)
    as m eqn:Hm.
  intros [Hok Hidx].
  destruct p; cbn [on_sched st_pc]; simp_state.
  - unfold start_attempt. simp_state.
    destruct (Err ctx); simp_state; [simp_state; rewrite <- ?Hm; now split|].
    destruct (Executable (cfg_world cfg) started) as [path|[id text]];
      simp_state; [|simp_state; rewrite <- ?Hm; now split].
    destruct (Args (cfg_world cfg)); simp_state; [simp_state; rewrite <- ?Hm; now split|].
    rewrite Receiver_eq. simp_state. rewrite foldl_app, <- ?Hm.
    cbn [foldl index_step]. now split.
  - destruct cur as [a|]; [|simp_state; rewrite <- ?Hm; now split].
    unfold on_receive.
    destruct (receiver (at_ep a) (at_childCtx a) pick) as [[ep' [err|]]|];
      simp_state; [| |simp_state; rewrite <- ?Hm; now split].
    + destruct (backoff (cfg_opts cfg) i) as [d|] eqn:Hb; simp_state;
        [|simp_state; rewrite <- ?Hm; now split].
      rewrite foldl_app, <- ?Hm. cbn [foldl index_step iw_ok iw_index].
      rewrite <- Hidx, Hb, Hok. split; [|reflexivity].
      cbn. now apply bool_decide_eq_true_2.
    + rewrite foldl_app, <- ?Hm. cbn [foldl index_step iw_ok iw_index].
      now split.
  - destruct (Done ctx || timer); simp_state; simp_state; rewrite <- ?Hm; now split.
  - destruct cur as [a|]; [|simp_state; rewrite <- ?Hm; now split].
    destruct (Done ctx || Done (at_childCtx a)); simp_state;
      rewrite <- ?Hm; [|simp_state; now split].
    destruct Hidx as [-> ->]. now split.
  - destruct watchers; simp_state; simp_state; rewrite <- ?Hm; now split.
  - simp_state; rewrite <- ?Hm; now split.
  - simp_state; rewrite <- ?Hm; now split.
Qed.

(** In every run, each logged delay is [backoff] at an index that is 0 for
    the first failure, grows by one with each failure, and restarts from 1,
    not 0, after an attempt in which the child reported readiness. *)
Theorem delays_follow_the_index cfg ctx next ins :
  delays_follow_index (cfg_opts cfg)
    (st_trace (run cfg ins (loop_entry ctx next))) = true.
Proof.
  unfold delays_follow_index.
  apply (run_invariant (index_inv cfg) cfg).
  - intros s e. apply on_event_index_inv.
  - intros s pick. apply on_sched_index_inv.
  - apply index_entry.
Qed.

(** The reader rejects a delay that is not the one of its index. *)
Example index_reader_rejects :
  delays_follow_index sample.defaults
    [LogBackoff Second []; LogBackoff Second []] = false
  /\ delays_follow_index sample.defaults
       [LogBackoff Second []; LogReady; LogBackoff (2 * Second) []] = true
  /\ delays_follow_index sample.defaults
       [LogBackoff Second []; LogReady; LogBackoff Second []] = false.
Proof. repeat split; vm_compute; reflexivity. Qed.

Lemma on_event_ctx_done e s :
  Done (st_ctx s) = true -> st_ctx (on_event e s) = st_ctx s.
Proof.
  intros Hd. destruct e as [r|n status|cause|]; cbn [on_event].
  - destruct (st_cur s) as [a|]; [|reflexivity].
    destruct (handler r (st_next s) (at_ep a)). reflexivity.
  - case_bool_decide; [|reflexivity]. unfold child_exit.
    destruct (foreign status); simp_state;
      destruct (st_cur s); simp_state; try case_bool_decide; reflexivity.
  - now rewrite Hd.
  - destruct (st_pc s); try reflexivity.
    destruct (st_timer s); reflexivity.
Qed.

Lemma on_sched_ctx cfg pick s : st_ctx (on_sched cfg pick s) = st_ctx s.
Proof.
  unfold on_sched. destruct (st_pc s); try reflexivity.
  - unfold start_attempt. destruct (Err (st_ctx s)); [reflexivity|].
    destruct (Executable (cfg_world cfg) (st_started s)) as [p|[id text]];
      [|reflexivity].
    destruct (Args (cfg_world cfg)); [reflexivity|].
    rewrite Receiver_eq. reflexivity.
  - destruct (st_cur s) as [a|]; [|reflexivity]. unfold on_receive.
    destruct (receiver (at_ep a) (at_childCtx a) pick) as [[ep' [err|]]|];
      simp_state; try reflexivity.
    destruct (backoff (cfg_opts cfg) (st_i s)); reflexivity.
  - destruct (Done (st_ctx s) || st_timer s); reflexivity.
  - destruct (st_cur s) as [a|]; [|reflexivity].
    destruct (Done (st_ctx s) || Done (at_childCtx a)); reflexivity.
  - destruct (st_watchers s); reflexivity.
Qed.

Lemma on_event_cancel_seen e s :
  st_trace (on_event e s) = st_trace s
  \/ (exists l, st_trace (on_event e s) = st_trace s ++ l
                /\ foldl cancel_step (mkCancelWatch false false)
                     (st_trace s ++ l)
                   = foldl cancel_step (mkCancelWatch false false) (st_trace s))
  \/ (exists cause,
        e = CtxCancel cause /\ Done (st_ctx (on_event e s)) = true
        /\ st_trace (on_event e s) = st_trace s ++ [Saw e]).
Proof.
  destruct e as [r|n status|cause|].
  - destruct (on_event_trace (Posted r) s) as [H|[H|(n & err & H)]];
      [now left| |]; right; left; eexists; (split; [exact H|]);
      now rewrite foldl_app.
  - destruct (on_event_trace (ChildExit n status) s) as [H|[H|(m & err & H)]];
      [now left| |]; right; left; eexists; (split; [exact H|]);
      now rewrite foldl_app.
  - cbn [on_event]. destruct (st_ctx s) as [c|] eqn:Hc; cbn [Done];
      [now left|].
    right. right. exists cause. split; [reflexivity|].
    unfold ctx_cancel. simp_state. rewrite Hc. cbn [cancel].
    destruct (st_cur s); simp_state; split; reflexivity.
  - destruct (on_event_trace TimerFired s) as [H|[H|(m & err & H)]];
      [now left| |]; right; left; eexists; (split; [exact H|]);
      now rewrite foldl_app.
Qed.

(** Once the cancellation of the outer context has been seen, no child is
    started any more; and a call whose context is done on entry starts
    none at all. *)
Theorem no_child_after_cancellation cfg ctx next ins :
  let t := st_trace (run cfg ins (loop_entry ctx next)) in
  no_start_after_cancel t = true
  /\ (Done ctx = true -> starts t = []).
Proof.
  cbn zeta. split.
  - unfold no_start_after_cancel.
    enough (H : cw_bad (foldl cancel_step (mkCancelWatch false false)
                          (st_trace (run cfg ins (loop_entry ctx next))))
                = false
                /\ (cw_cancelled
                      (foldl cancel_step (mkCancelWatch false false)
                         (st_trace (run cfg ins (loop_entry ctx next))))
                    = true ->
                    Done (st_ctx (run cfg ins (loop_entry ctx next))) = true))
      by (destruct H as [-> _]; reflexivity).
    apply (run_invariant
      (fun s => cw_bad (foldl cancel_step (mkCancelWatch false false)
                          (st_trace s)) = false
                /\ (cw_cancelled (foldl cancel_step (mkCancelWatch false false)
                                    (st_trace s)) = true ->
                    Done (st_ctx s) = true)) cfg).
    + intros s e [Hbad Hc].
      destruct (on_event_cancel_seen e s)
        as [Ht|[(l & Ht & Hf)|(cause & -> & Hd & Ht)]].
      * rewrite Ht. split; [exact Hbad|]. intros H.
        rewrite on_event_ctx_done; auto.
      * rewrite Ht, Hf. split; [exact Hbad|]. intros H.
        rewrite on_event_ctx_done; auto.
      * rewrite Ht, foldl_app. cbn [foldl cancel_step cw_bad cw_cancelled].
        split; [exact Hbad|]. intros _. exact Hd.
    + intros s pick [Hbad Hc]. rewrite on_sched_ctx.
      destruct (on_sched_trace cfg pick s)
        as [->|[(path & rest & _ & Hctx & _ & _ & _ & _ & ->)
               |[(a & d & _ & _ & _ & _ & ->)
                |(a & ep' & _ & _ & _ & _ & ->)]]];
        rewrite ?foldl_app; cbn [foldl cancel_step cw_bad cw_cancelled];
        try (split; assumption).
      rewrite Hctx in Hc. cbn [Done] in Hc.
      destruct (cw_cancelled _); [now specialize (Hc eq_refl)|].
      rewrite Hbad. split; [reflexivity|discriminate].
    + split; [reflexivity|discriminate].
  - intros Hd.
    enough (H : Done (st_ctx (run cfg ins (loop_entry ctx next))) = true
                /\ starts (st_trace (run cfg ins (loop_entry ctx next))) = [])
      by apply H.
    apply (run_invariant
             (fun s => Done (st_ctx s) = true /\ starts (st_trace s) = []) cfg).
    + intros s e [Hc Hs]. rewrite on_event_ctx_done by exact Hc.
      split; [exact Hc|].
      destruct (on_event_trace e s) as [->|[->|(n & err & ->)]];
        rewrite ?starts_app, ?Hs; reflexivity.
    + intros s pick [Hc Hs]. rewrite on_sched_ctx. split; [exact Hc|].
      destruct (on_sched_trace cfg pick s)
        as [->|[(path & rest & _ & Hctx & _ & _ & _ & _ & ->)
               |[(a & d & _ & _ & _ & _ & ->)
                |(a & ep' & _ & _ & _ & _ & ->)]]];
        rewrite ?starts_app, ?Hs; try reflexivity.
      rewrite Hctx in Hc. discriminate Hc.
    + split; [exact Hd|reflexivity].
Qed.

Lemma no_child_after_cancellation_witness :
  let ins := [Sched true; Happens (CtxCancel None); Sched true; Sched true;
              Sched true; Sched true] in
  Done (Some Canceled) = true
  /\ no_start_after_cancel
       (st_trace (run sample.cfg ins (loop_entry (Some Canceled) 0))) = true
  /\ starts (st_trace (run sample.cfg ins (loop_entry (Some Canceled) 0))) = [].
Proof.
  intros ins.
  assert (H : Done (Some Canceled) = true) by reflexivity.
  split; [exact H|].
  destruct (no_child_after_cancellation sample.cfg (Some Canceled) 0 ins)
    as [H1 H2].
  split; [exact H1|exact (H2 H)].
Defined.

Lemma on_event_watchers_nil e s :
  st_watchers s = [] -> st_watchers (on_event e s) = [].
Proof.
  intros Hw. destruct e as [r|n status|cause|]; cbn [on_event].
  - destruct (st_cur s) as [a|]; [|exact Hw].
    destruct (handler r (st_next s) (at_ep a)). exact Hw.
  - rewrite Hw. rewrite bool_decide_eq_false_2; [exact Hw|].
    apply not_elem_of_nil.
  - destruct (Done (st_ctx s)); [exact Hw|]. unfold ctx_cancel. simp_state.
    destruct (st_cur s); exact Hw.
  - destruct (st_pc s); try exact Hw. destruct (st_timer s); exact Hw.
Qed.

Lemma final_error_event cfg e s r :
  final_error cfg s r -> final_error cfg (on_event e s) r.
Proof.
  intros (err & -> & [Hc|Hx]); exists err; (split; [reflexivity|]).
  - left. rewrite on_event_ctx_done; [exact Hc|]. now rewrite Hc.
  - now right.
Qed.

Lemma on_event_return_inv cfg e s :
  return_inv cfg s -> return_inv cfg (on_event e s).
Proof.
  unfold return_inv. rewrite on_event_pc.
  destruct (st_pc s); auto.
  - apply final_error_event.
  - intros [Hf Hw]. split; [now apply final_error_event|].
    now apply on_event_watchers_nil.
Qed.

Lemma on_sched_return_inv cfg pick s :
  return_inv cfg s -> return_inv cfg (on_sched cfg pick s).
Proof.
  unfold return_inv, final_error.
  destruct s as [p i ctx cur next started watchers timer trace].
  simp_state.
  destruct p; cbn [on_sched st_pc]; simp_state; intros H.
  - unfold start_attempt. simp_state.
    destruct ctx as [c|]; cbn [Err Cause]; simp_state.
    { exists c. split; [reflexivity|now left]. }
    destruct (Executable (cfg_world cfg) started) as [path|[id text]] eqn:Hexe;
      simp_state.
    + destruct (Args (cfg_world cfg)); simp_state; [exact I|].
      rewrite Receiver_eq. simp_state. exact I.
    + eexists. split; [reflexivity|]. right. now exists started, id, text.
  - destruct cur as [a|]; [|exact I]. unfold on_receive.
    destruct (receiver (at_ep a) (at_childCtx a) pick) as [[ep' [err|]]|];
      simp_state; try exact I.
    destruct (backoff (cfg_opts cfg) i); simp_state; exact I.
  - destruct (Done ctx || timer); simp_state; exact I.
  - destruct cur as [a|]; [|exact I].
    destruct (Done ctx || Done (at_childCtx a)); simp_state; exact I.
  - destruct watchers; simp_state; [now split|exact H].
  - exact H.
  - exact I.
Qed.

(** When the loop has returned, with [r]: [r] is not nil but the cause of
    the outer context, or the failure to find the executable; and no
    watcher goroutine is left. *)
Theorem loop_returns_an_error cfg ctx next ins r :
  let s := run cfg ins (loop_entry ctx next) in
  st_pc s = Returned r ->
  st_watchers s = []
  /\ exists e, r = Some e
      /\ (st_ctx s = Some e
          \/ exists n id text,
               Executable (cfg_world cfg) n = inr (id, text)
               /\ e = Errorf_w "failed to lookup current executable: "
                       (Foreign id text)).
Proof.
  intros s Hpc.
  assert (H : return_inv cfg s).
  { apply (run_invariant (return_inv cfg) cfg).
    - intros s0 e. apply on_event_return_inv.
    - intros s0 pick. apply on_sched_return_inv.
    - exact I. }
  unfold return_inv in H. rewrite Hpc in H. destruct H as [Hf Hw].
  split; [exact Hw|exact Hf].
Qed.

Lemma loop_returns_an_error_witness :
  let ins := [Sched true; Happens (CtxCancel (Some (7%nat, "SIGTERM")));
              Sched true; Sched true; Sched true;
              Happens (ChildExit 0 (Some (1%nat, "signal: interrupt")));
              Sched true] in
  let s := run sample.cfg ins (loop_entry None 0) in
  st_pc s = Returned (Some (Foreign 7 "SIGTERM"))
  /\ st_watchers s = []
  /\ exists e, Some (Foreign 7 "SIGTERM") = Some e
      /\ (st_ctx s = Some e
          \/ exists n id text,
               Executable (cfg_world sample.cfg) n = inr (id, text)
               /\ e = Errorf_w "failed to lookup current executable: "
                       (Foreign id text)).
Proof.
  intros ins s.
  assert (H : st_pc s = Returned (Some (Foreign 7 "SIGTERM"))) by reflexivity.
  split; [exact H|].
  exact (loop_returns_an_error sample.cfg None 0 ins _ H).
Defined.

Lemma Is_same e : Is e e = true.
Proof. destruct e; cbn; now rewrite bool_decide_eq_true_2. Qed.

Lemma receiver_nil ep c pick ep' :
  receiver ep c pick = Some (ep', None) ->
  exists e, (c = Some e \/ rctx ep = Some e) /\ Is e (errReady ep) = true.
Proof.
  unfold receiver.
  destruct c as [ec|], (rctx ep) as [er|]; cbn [select2]; try discriminate.
  - destruct pick.
    + destruct (Is ec (errReady ep)) eqn:Hi; [|discriminate]. eauto.
    + destruct (Is er (errReady ep)) eqn:Hi; [|discriminate]. eauto.
  - destruct (Is ec (errReady ep)) eqn:Hi; [|discriminate]. eauto.
  - destruct (Is er (errReady ep)) eqn:Hi; [|discriminate]. eauto.
Qed.

Lemma on_event_report_inv e s :
  sentinel_inv s ->
  (rw_bad (foldl report_step (mkReportWatch false false) (st_trace s)) = false
   /\ forall a, st_cur s = Some a ->
        rctx (at_ep a) = Some (errReady (at_ep a)) ->
        rw_reported (foldl report_step (mkReportWatch false false) (st_trace s))
        = true) ->
  rw_bad (foldl report_step (mkReportWatch false false)
            (st_trace (on_event e s))) = false
  /\ forall a, st_cur (on_event e s) = Some a ->
       rctx (at_ep a) = Some (errReady (at_ep a)) ->
       rw_reported (foldl report_step (mkReportWatch false false)
                      (st_trace (on_event e s))) = true.
Proof.
  intros [_ Hatt].
  destruct s as [p i ctx cur next started watchers timer trace].
  simp_state.
  remember (foldl report_step (mkReportWatch false false) trace) as m eqn:Hm.
  intros [Hbad Hrep].
  destruct e as [r|n status|cause|]; cbn [on_event]; simp_state.
  - destruct cur as [a|]; [|simp_state; rewrite <- ?Hm; now split].
    destruct (Hatt a eq_refl) as ((q & Hq & Hlt) & _ & _ & _).
    destruct (handler_rctx r next (at_ep a) q Hq Hlt) as (H1 & H2 & H3).
    destruct (handler r next (at_ep a)) as [ep' next'].
    cbn [fst snd] in *. simp_state.
    rewrite foldl_app, <- Hm. cbn [foldl report_step rw_bad rw_reported].
    split; [exact Hbad|].
    intros a' [= <-]. simp_state. rewrite H1. intros He.
    destruct (H3 _ He) as [H|[(_ & data & -> & Hd)|H]].
    + rewrite (Hrep a eq_refl H). reflexivity.
    + cbn [is_ready_event]. rewrite Hd. apply orb_true_r.
    + rewrite Is_same in H. discriminate.
  - case_bool_decide as Hin; [|simp_state; rewrite <- ?Hm; now split].
    unfold child_exit.
    destruct (foreign status) as [err|]; simp_state;
      (destruct cur as [a|]; simp_state;
       [case_bool_decide as Hid; simp_state|]);
      rewrite ?foldl_app, <- ?Hm;
      cbn [foldl report_step rw_bad rw_reported is_ready_event];
      rewrite ?orb_false_r;
      (split; [exact Hbad|]); try (intros a' Ha'; discriminate Ha');
      intros a' [= <-]; simp_state; apply (Hrep a eq_refl).
  - destruct ctx as [c|]; cbn [Done];
      [simp_state; rewrite <- ?Hm; now split|].
    unfold ctx_cancel. simp_state. cbn [cancel].
    destruct cur as [a|]; simp_state;
      rewrite ?foldl_app, <- ?Hm;
      cbn [foldl report_step rw_bad rw_reported is_ready_event];
      rewrite ?orb_false_r;
      (split; [exact Hbad|]); [|intros a' Ha'; discriminate Ha'].
    intros a' [= <-]. simp_state. cbn [errReady rctx].
    destruct (Hatt a eq_refl) as ((q & Hq & Hlt) & _ & _ & _).
    destruct (rctx (at_ep a)) as [e0|] eqn:Hrc; cbn [inherit].
    + intros He. apply (Hrep a eq_refl). congruence.
    + rewrite Hq. destruct cause as [[id text]|]; discriminate.
  - destruct p; simp_state; rewrite <- ?Hm; try (now split).
    destruct timer; simp_state; rewrite ?foldl_app, <- ?Hm;
      cbn [foldl report_step rw_bad rw_reported is_ready_event];
      rewrite ?orb_false_r; now split.
Qed.

Lemma on_sched_report_inv cfg pick s :
  sentinel_inv s ->
  (rw_bad (foldl report_step (mkReportWatch false false) (st_trace s)) = false
   /\ forall a, st_cur s = Some a ->
        rctx (at_ep a) = Some (errReady (at_ep a)) ->
        rw_reported (foldl report_step (mkReportWatch false false) (st_trace s))
        = true) ->
  rw_bad (foldl report_step (mkReportWatch false false)
            (st_trace (on_sched cfg pick s))) = false
  /\ forall a, st_cur (on_sched cfg pick s) = Some a ->
       rctx (at_ep a) = Some (errReady (at_ep a)) ->
       rw_reported (foldl report_step (mkReportWatch false false)
                      (st_trace (on_sched cfg pick s))) = true.
Proof.
  intros [_ Hatt].
  destruct s as [p i ctx cur next started watchers timer trace].
  simp_state.
  remember (foldl report_step (mkReportWatch false false) trace) as m eqn:Hm.
  intros [Hbad Hrep].
  destruct p; cbn [on_sched st_pc]; simp_state;
    try (rewrite <- ?Hm; now split).
  - unfold start_attempt. simp_state.
    destruct ctx as [c|]; cbn [Err]; simp_state;
      [rewrite <- ?Hm; now split|].
    destruct (Executable (cfg_world cfg) started) as [path|[id text]];
      simp_state; [|rewrite <- ?Hm; now split].
    destruct (Args (cfg_world cfg)); simp_state; [rewrite <- ?Hm; now split|].
    rewrite Receiver_eq. simp_state. rewrite foldl_app, <- Hm.
    cbn [foldl report_step rw_bad rw_reported].
    split; [exact Hbad|]. intros a [= <-]. simp_state. discriminate.
  - destruct cur as [a|]; [|simp_state; rewrite <- ?Hm; now split].
    destruct (Hatt a eq_refl) as (_ & Hchild & Hrc & _).
    unfold on_receive.
    destruct (receiver (at_ep a) (at_childCtx a) pick) as [[ep' r]|] eqn:Hrecv;
      simp_state; [|rewrite <- ?Hm; now split].
    destruct (receiver_result _ _ _ _ _ Hrecv) as (H1 & H2 & H3).
    assert (Hkeep : rctx ep' = Some (errReady ep') -> rw_reported m = true).
    { rewrite H1. intros He. destruct (H2 _ He) as [H|H].
      - exact (Hrep a eq_refl H).
      - apply Hchild in H. rewrite Is_same in H. discriminate. }
    destruct r as [err|].
    + destruct (backoff (cfg_opts cfg) i) as [d|]; simp_state;
        rewrite ?foldl_app, <- ?Hm;
        cbn [foldl report_step rw_bad rw_reported];
        (split; [exact Hbad|]); intros a' [= <-]; simp_state; exact Hkeep.
    + simp_state. rewrite foldl_app, <- Hm.
      cbn [foldl report_step rw_bad rw_reported].
      assert (Hr : rw_reported m = true).
      { destruct (receiver_nil _ _ _ _ Hrecv) as (e & [He|He] & Hi).
        - rewrite (Hchild e He) in Hi. discriminate.
        - destruct (Hrc e He) as [->|H]; [|congruence].
          exact (Hrep a eq_refl He). }
      rewrite Hr, Hbad. split; [reflexivity|]. intros; reflexivity.
  - destruct (Done ctx || timer); simp_state; rewrite <- ?Hm;
      [split; [exact Hbad|]; intros a Ha; discriminate Ha|now split].
  - destruct cur as [a|]; [|simp_state; rewrite <- ?Hm; now split].
    destruct (Done ctx || Done (at_childCtx a)); simp_state; rewrite <- ?Hm;
      [split; [exact Hbad|]; intros a' Ha; discriminate Ha|now split].
  - destruct watchers; simp_state; rewrite <- ?Hm; now split.
Qed.

(** In every run, "child is initialized successfully" is logged for an
    attempt only if a report with an empty body has been handled since the
    child of that attempt was started: neither the exit of the child, nor
    a cancellation, nor a failure report can make a child pass for ready. *)
Theorem ready_is_logged_only_after_a_report cfg ctx next ins :
  ready_only_after_report (st_trace (run cfg ins (loop_entry ctx next))) = true.
Proof.
  unfold ready_only_after_report.
  enough (H : sentinel_inv (run cfg ins (loop_entry ctx next))
              /\ rw_bad (foldl report_step (mkReportWatch false false)
                           (st_trace (run cfg ins (loop_entry ctx next))))
                 = false
              /\ forall a, st_cur (run cfg ins (loop_entry ctx next)) = Some a ->
                   rctx (at_ep a) = Some (errReady (at_ep a)) ->
                   rw_reported (foldl report_step (mkReportWatch false false)
                                  (st_trace (run cfg ins (loop_entry ctx next))))
                   = true)
    by (destruct H as (_ & -> & _); reflexivity).
  apply (run_invariant
    (fun s => sentinel_inv s
              /\ rw_bad (foldl report_step (mkReportWatch false false)
                           (st_trace s)) = false
              /\ forall a, st_cur s = Some a ->
                   rctx (at_ep a) = Some (errReady (at_ep a)) ->
                   rw_reported (foldl report_step (mkReportWatch false false)
                                  (st_trace s)) = true) cfg).
  - intros s e [Hs Hr]. split; [now apply on_event_sentinel_inv|].
    now apply on_event_report_inv.
  - intros s pick [Hs Hr]. split; [now apply on_sched_sentinel_inv|].
    now apply on_sched_report_inv.
  - split; [apply sentinel_inv_entry|]. split; [reflexivity|].
    intros a Ha. discriminate Ha.
Qed.

(** The reader rejects a ready log without a report. *)
Example report_reader_rejects :
  ready_only_after_report
    [Start 0 (mkCmd [] [] 0 None); Saw (ChildExit 0 None); LogReady] = false
  /\ ready_only_after_report
       [Start 0 (mkCmd [] [] 0 None); Saw (Posted (Body "")); LogReady;
        Start 1 (mkCmd [] [] 0 None); LogReady] = false
  /\ ready_only_after_report
       [Start 0 (mkCmd [] [] 0 None); Saw (Posted (Body "")); LogReady] = true.
Proof. repeat split; reflexivity. Qed.

(** ** After the cancellation of the outer context *)

Lemma handler_done r n ep : Done (rctx (fst (handler r n ep))) = true.
Proof.
  destruct r as [data|id text]; cbn [handler].
  - destruct (String.length data =? 0)%nat; cbn; now destruct (rctx ep).
  - cbn. now destruct (rctx ep).
Qed.

Lemma cancel_done cause c : Done (cancel cause c) = true.
Proof. now destruct c. Qed.

Lemma on_event_inherited e s : inherited s -> inherited (on_event e s).
Proof.
  unfold inherited.
  destruct s as [p i ctx cur next started watchers timer trace].
  simp_state. intros Hinh.
  destruct e as [r|n status|cause|]; cbn [on_event]; simp_state.
  - destruct cur as [a|]; [|exact Hinh].
    pose proof (handler_done r next (at_ep a)) as Hd.
    destruct (handler r next (at_ep a)) as [ep' next']. cbn [fst] in Hd.
    simp_state. intros a' [= <-] Hc. simp_state.
    split; [now apply (Hinh a eq_refl)|exact Hd].
  - case_bool_decide; [|exact Hinh]. unfold child_exit.
    destruct (foreign status); simp_state;
      (destruct cur as [a|]; simp_state;
       [case_bool_decide; simp_state|]); try exact Hinh;
      intros a' [= <-] Hc; simp_state;
      (split; [now destruct (at_childCtx a)|now apply (Hinh a eq_refl)]).
  - destruct ctx as [c|]; cbn [Done]; [exact Hinh|].
    unfold ctx_cancel. simp_state. cbn [cancel].
    destruct cur as [a|]; simp_state; [|intros a Ha; discriminate Ha].
    intros a' [= <-] _. simp_state. cbn [rctx].
    split; [now destruct (at_childCtx a)|now destruct (rctx (at_ep a))].
  - destruct p; try exact Hinh. destruct timer; simp_state; exact Hinh.
Qed.

Lemma on_sched_inherited cfg pick s :
  inherited s -> inherited (on_sched cfg pick s).
Proof.
  unfold inherited.
  destruct s as [p i ctx cur next started watchers timer trace].
  simp_state. intros Hinh.
  destruct p; cbn [on_sched st_pc]; simp_state; try exact Hinh.
  - unfold start_attempt. simp_state.
    destruct ctx as [c|]; cbn [Err]; simp_state; [exact Hinh|].
    destruct (Executable (cfg_world cfg) started) as [path|[id text]];
      simp_state; [|exact Hinh].
    destruct (Args (cfg_world cfg)); simp_state; [exact Hinh|].
    rewrite Receiver_eq. simp_state. intros a _ Hd. discriminate Hd.
  - destruct cur as [a|]; [|exact Hinh]. unfold on_receive.
    destruct (receiver (at_ep a) (at_childCtx a) pick) as [[ep' r]|] eqn:Hrecv;
      simp_state; [|exact Hinh].
    assert (Hep : Done (rctx ep') = true).
    { revert Hrecv. unfold receiver.
      destruct (select2 (at_childCtx a) (rctx (at_ep a)) pick); [|discriminate].
      destruct (negb _); intros [= <- _]; apply cancel_done. }
    destruct r as [err|].
    + destruct (backoff (cfg_opts cfg) i); simp_state;
        intros a' [= <-] Hc; simp_state;
        (split; [apply cancel_done|exact Hep]).
    + intros a' [= <-] Hc. simp_state.
      split; [now apply (Hinh a eq_refl)|exact Hep].
  - destruct (Done ctx || timer); simp_state; [|exact Hinh].
    intros a Ha. discriminate Ha.
  - destruct cur as [a|]; [|exact Hinh].
    destruct (Done ctx || Done (at_childCtx a)); simp_state; [|exact Hinh].
    intros a' Ha. discriminate Ha.
  - destruct watchers; simp_state; exact Hinh.
Qed.

Lemma backoff_defined v i : 0 <= i -> exists d, backoff v i = Some d.
Proof.
  intros Hi. unfold backoff, shl64.
  destruct (i <? 0) eqn:E; [apply Z.ltb_lt in E; lia|].
  destruct (64 <=? i); eauto.
Qed.

Lemma on_event_cur_some e s :
  (exists a, st_cur s = Some a) -> exists a, st_cur (on_event e s) = Some a.
Proof.
  intros [a Ha]. destruct e as [r|n status|cause|]; cbn [on_event].
  - rewrite Ha. destruct (handler r (st_next s) (at_ep a)). simp_state. eauto.
  - case_bool_decide; [|eauto]. unfold child_exit.
    destruct (foreign status); simp_state; rewrite Ha; simp_state;
      case_bool_decide; simp_state; eauto.
  - destruct (Done (st_ctx s)); [eauto|]. unfold ctx_cancel. simp_state.
    rewrite Ha. simp_state. eauto.
  - destruct (st_pc s); eauto. destruct (st_timer s); simp_state; eauto.
Qed.

Lemma on_event_winding_down e s : winding_down s -> winding_down (on_event e s).
Proof.
  unfold winding_down. rewrite on_event_pc, on_event_i.
  intros (Hd & Hinh & Hcur & Hi & Hp).
  rewrite on_event_ctx_done by exact Hd.
  split; [exact Hd|]. split; [now apply on_event_inherited|].
  split; [|now split].
  intros Hw. apply on_event_cur_some. now apply Hcur.
Qed.

Ltac wd_finish :=
  split;
  [ split; [first [assumption|reflexivity]|]; split; [assumption|];
    split; [intros; first [discriminate|eauto]|];
    split; [intros; first [discriminate|lia|auto]|discriminate]
  | cbn; lia ].

Lemma on_sched_winding_down cfg pick s :
  winding_down s ->
  winding_down (on_sched cfg pick s)
  /\ (rank (st_pc (on_sched cfg pick s)) <= rank (st_pc s) - 1)%nat.
Proof.
  unfold winding_down. intros (Hd & Hinh & Hcur & Hi & Hp).
  rewrite on_sched_ctx.
  pose proof (on_sched_inherited cfg pick s Hinh) as Hinh'.
  revert Hinh'. unfold inherited in Hinh. revert Hd Hinh Hcur Hi Hp.
  destruct s as [p i ctx cur next started watchers timer trace].
  simp_state. intros Hd Hinh Hcur Hi Hp.
  destruct p; cbn [on_sched st_pc]; simp_state; cbn [waiting rank] in *.
  - unfold start_attempt. simp_state.
    destruct ctx as [c|]; [|discriminate Hd]. cbn [Err]. simp_state.
    intros Hinh'. cbn [rank waiting].
    wd_finish.
  - destruct (Hcur eq_refl) as [a ->].
    destruct (Hinh a eq_refl Hd) as [Hc Hr].
    unfold on_receive.
    destruct (receiver (at_ep a) (at_childCtx a) pick) as [[ep' r]|] eqn:Hrecv.
    + destruct r as [err|]; simp_state.
      * destruct (backoff_defined (cfg_opts cfg) i (Hi eq_refl)) as [d ->].
        simp_state. intros Hinh'. cbn [rank waiting].
        wd_finish.
      * intros Hinh'. cbn [rank waiting].
        wd_finish.
    + exfalso. revert Hrecv. unfold receiver.
      destruct (at_childCtx a); [|discriminate Hc].
      destruct (rctx (at_ep a)); cbn [select2]; destruct (negb _);
        discriminate.
  - rewrite Hd. cbn [orb]. simp_state. intros Hinh'. cbn [rank waiting].
    wd_finish.
  - destruct (Hcur eq_refl) as [a ->]. rewrite Hd. cbn [orb]. simp_state.
    intros Hinh'. cbn [rank waiting].
    wd_finish.
  - destruct watchers; simp_state; intros Hinh'; cbn [rank waiting];
      wd_finish.
  - intros Hinh'. wd_finish.
  - now destruct Hp.
Qed.

Lemma run_winding_down cfg ins :
  forall s,
    winding_down s ->
    winding_down (run cfg ins s)
    /\ (rank (st_pc (run cfg ins s)) <= rank (st_pc s) - scheds ins)%nat.
Proof.
  induction ins as [|x ins IH]; intros s Hs.
  - cbn. split; [exact Hs|lia].
  - cbn [run foldl scheds]. destruct x as [e|pick]; cbn [step].
    + destruct (IH _ (on_event_winding_down e s Hs)) as [H1 H2].
      split; [exact H1|]. rewrite on_event_pc in H2. exact H2.
    + destruct (on_sched_winding_down cfg pick s Hs) as [H0 Hr].
      destruct (IH _ H0) as [H1 H2].
      split; [exact H1|]. unfold run in H2. lia.
Qed.

Lemma rank_LoopHead_le p : (rank p <= 3)%nat.
Proof. destruct p; cbn; lia. Qed.

(** Once the outer context is done, the loop leaves whatever wait it is in:
    however the events fall, after it has been scheduled three times it is
    in, or past, the deferred wait for the watchers, about to return an
    error that is the cause of the context or the failure to find the
    executable. *)
Theorem cancellation_ends_the_loop cfg ctx next ins ins' :
  let s := run cfg ins (loop_entry ctx next) in
  Done (st_ctx s) = true ->
  st_pc s <> Panicked ->
  0 <= st_i s ->
  (3 <= scheds ins')%nat ->
  exists r,
    (st_pc (run cfg ins' s) = Draining r \/ st_pc (run cfg ins' s) = Returned r)
    /\ final_error cfg (run cfg ins' s) r.
Proof.
  intros s Hd Hp Hi Hn.
  assert (Hw : winding_down s).
  { split; [exact Hd|]. split.
    - apply (run_invariant inherited cfg).
      + intros s0 e. apply on_event_inherited.
      + intros s0 pick. apply on_sched_inherited.
      + intros a Ha. discriminate Ha.
    - split; [|now split].
      intros Hwait.
      destruct (run_restart_inv cfg ins _ (restart_inv_entry ctx next))
        as (_ & _ & H & _).
      destruct (H Hwait) as (a & Ha & _). eauto. }
  destruct (run_winding_down cfg ins' s Hw) as [(_ & _ & _ & _ & Hp') Hr].
  pose proof (rank_LoopHead_le (st_pc s)) as Hle.
  assert (Hret : return_inv cfg (run cfg ins' s)).
  { unfold s. rewrite <- run_app.
    apply (run_invariant (return_inv cfg) cfg).
    - intros s0 e. apply on_event_return_inv.
    - intros s0 pick. apply on_sched_return_inv.
    - exact I. }
  unfold return_inv in Hret.
  destruct (st_pc (run cfg ins' s)) as [| | | |r|r|] eqn:Hpc;
    cbn [rank] in Hr; try lia.
  - exists r. split; [now left|exact Hret].
  - exists r. split; [now right|apply Hret].
  - now destruct Hp'.
Qed.

Lemma cancellation_ends_the_loop_witness :
  let ins := [Sched true; Happens (Posted (Body "")); Sched true;
              Happens (CtxCancel None)] in
  let ins' := [Sched true; Happens (ChildExit 0 None); Sched false;
               Sched true] in
  let s := run sample.cfg ins (loop_entry None 0) in
  Done (st_ctx s) = true
  /\ st_pc s <> Panicked
  /\ 0 <= st_i s
  /\ (3 <= scheds ins')%nat
  /\ exists r,
      (st_pc (run sample.cfg ins' s) = Draining r
       \/ st_pc (run sample.cfg ins' s) = Returned r)
      /\ final_error sample.cfg (run sample.cfg ins' s) r.
Proof.
  intros ins ins' s.
  assert (H1 : Done (st_ctx s) = true) by reflexivity.
  assert (H2 : st_pc s <> Panicked) by discriminate.
  assert (H3 : 0 <= st_i s) by (vm_compute; discriminate).
  assert (H4 : (3 <= scheds ins')%nat) by (cbn; lia).
  split; [exact H1|]. split; [exact H2|]. split; [exact H3|].
  split; [exact H4|].
  exact (cancellation_ends_the_loop sample.cfg None 0 ins ins' H1 H2 H3 H4).
Defined.

Lemma on_event_watchers e s m :
  m ∈ st_watchers (on_event e s) ->
  m ∈ st_watchers s /\ forall status, e <> ChildExit m status.
Proof.
  destruct e as [r|n status|cause|]; cbn [on_event].
  - destruct (st_cur s) as [a|]; [|now split].
    destruct (handler r (st_next s) (at_ep a)). simp_state. now split.
  - case_bool_decide as Hin.
    + unfold child_exit.
      assert (Hw : forall s0 : state,
                st_watchers
                  (match st_cur (match foreign status with
                                 | Some err => emit (LogDied n err) s0
                                 | None => s0
                                 end) with
                   | Some a =>
                       if bool_decide (at_id a = n)
                       then with_cur
                              (Some (with_childCtx
                                       (cancel None
                                          (cancel (foreign status)
                                             (at_childCtx a))) a))
                              (match foreign status with
                               | Some err => emit (LogDied n err) s0
                               | None => s0
                               end)
                       else match foreign status with
                            | Some err => emit (LogDied n err) s0
                            | None => s0
                            end
                   | None => match foreign status with
                             | Some err => emit (LogDied n err) s0
                             | None => s0
                             end
                   end) = st_watchers s0).
      { intros s0. destruct (foreign status); simp_state;
          destruct (st_cur s0); simp_state; try case_bool_decide; reflexivity. }
      rewrite Hw. simp_state. intros Hm.
      apply list_elem_of_filter in Hm as [Hne Hm].
      split; [exact Hm|]. intros st [= ->]. contradiction.
    + intros Hm. split; [exact Hm|]. intros st [= ->]. contradiction.
  - destruct (Done (st_ctx s)); [now split|]. unfold ctx_cancel. simp_state.
    destruct (st_cur s); simp_state; now split.
  - destruct (st_pc s); try (now split).
    destruct (st_timer s); simp_state; now split.
Qed.

Lemma drain cfg r ins :
  forall s,
    st_pc s = Draining r \/ st_pc s = Returned r ->
    (forall n, n ∈ st_watchers s ->
               exists status, In (Happens (ChildExit n status)) ins) ->
    st_pc (run cfg ins s) = Returned r
    \/ (st_pc (run cfg ins s) = Draining r /\ st_watchers (run cfg ins s) = []).
Proof.
  induction ins as [|x ins IH]; intros s Hpc Hw.
  - cbn. destruct Hpc as [Hpc|Hpc]; [|now left].
    right. split; [exact Hpc|].
    destruct (st_watchers s) as [|n l]; [reflexivity|].
    destruct (Hw n) as [st []]. apply elem_of_cons. now left.
  - cbn [run foldl]. apply IH.
    + destruct x as [e|pick]; cbn [step].
      * now rewrite on_event_pc.
      * unfold on_sched. destruct Hpc as [Hpc|Hpc]; rewrite Hpc;
          [|now right].
        destruct (st_watchers s); simp_state; [now right|now left].
    + intros n Hn. destruct x as [e|pick]; cbn [step] in Hn.
      * apply on_event_watchers in Hn as [Hn Hne].
        destruct (Hw n Hn) as [st [Hst|Hst]]; [|eauto].
        injection Hst as ->. now destruct (Hne st).
      * assert (Hn' : n ∈ st_watchers s).
        { revert Hn. unfold on_sched. destruct Hpc as [Hpc|Hpc]; rewrite Hpc;
            [|auto].
          destruct (st_watchers s) eqn:Ew; simp_state; rewrite ?Ew; auto. }
        destruct (Hw n Hn') as [st [Hst|Hst]]; [discriminate Hst|eauto].
Qed.

(** The deferred [wg.Wait()]: once the loop is over, the call returns its
    error as soon as the watcher of every child still running has seen
    that child exit, and the loop is scheduled. *)
Theorem returns_once_children_are_gone cfg s r ins pick :
  st_pc s = Draining r ->
  (forall n, n ∈ st_watchers s ->
             exists status, In (Happens (ChildExit n status)) ins) ->
  st_pc (run cfg (ins ++ [Sched pick]) s) = Returned r.
Proof.
  intros Hpc Hw. rewrite run_app. cbn [run foldl step].
  destruct (drain cfg r ins s (or_introl Hpc) Hw) as [H|[H1 H2]];
    unfold on_sched; fold (run cfg ins s).
  - now rewrite H.
  - now rewrite H1, H2.
Qed.

Lemma returns_once_children_are_gone_witness :
  let s := run sample.cfg
             [Sched true; Happens (CtxCancel None); Sched true; Sched true;
              Sched true] (loop_entry None 0) in
  let ins := [Happens (Posted (Body "late"));
              Happens (ChildExit 0 (Some (2%nat, "signal: interrupt")))] in
  st_pc s = Draining (Some Canceled)
  /\ (forall n, n ∈ st_watchers s ->
                exists status, In (Happens (ChildExit n status)) ins)
  /\ st_pc (run sample.cfg (ins ++ [Sched true]) s) = Returned (Some Canceled).
Proof.
  intros s ins.
  assert (H1 : st_pc s = Draining (Some Canceled)) by reflexivity.
  assert (H2 : forall n, n ∈ st_watchers s ->
                 exists status, In (Happens (ChildExit n status)) ins).
  { intros n Hn. change (st_watchers s) with [0%nat] in Hn.
    apply list_elem_of_singleton in Hn. subst n.
    eexists. right. left. reflexivity. }
  split; [exact H1|]. split; [exact H2|].
  exact (returns_once_children_are_gone sample.cfg s (Some Canceled) ins true
           H1 H2).
Defined.

(** ** Options *)

Lemma Options_eq a b :
  ShutdownSignal a = ShutdownSignal b ->
  ShutdownTimeout a = ShutdownTimeout b ->
  MinBackoffTimeout a = MinBackoffTimeout b ->
  MaxBackoffTimeout a = MaxBackoffTimeout b ->
  a = b.
Proof. destruct a, b; cbn; congruence. Qed.

(** Applying the defaults twice is applying them once: after a call, the
    caller's [Options] value can be handed to a later call unchanged, and
    no field of it is zero. *)
Theorem setDefaults_idempotent v :
  setDefaults (setDefaults v) = setDefaults v
  /\ ShutdownSignal (setDefaults v) <> None
  /\ ShutdownTimeout (setDefaults v) <> 0
  /\ MinBackoffTimeout (setDefaults v) <> 0
  /\ MaxBackoffTimeout (setDefaults v) <> 0.
Proof.
  destruct (setDefaults_fields v) as (H1 & H2 & H3 & H4).
  assert (N1 : ShutdownSignal (setDefaults v) <> None)
    by (rewrite H1; discriminate).
  assert (N2 : ShutdownTimeout (setDefaults v) <> 0).
  { rewrite H2. destruct (ShutdownTimeout v =? 0) eqn:E;
      [discriminate|now apply Z.eqb_neq]. }
  assert (N3 : MinBackoffTimeout (setDefaults v) <> 0).
  { rewrite H3. destruct (MinBackoffTimeout v =? 0) eqn:E;
      [discriminate|now apply Z.eqb_neq]. }
  assert (N4 : MaxBackoffTimeout (setDefaults v) <> 0).
  { rewrite H4. destruct (MaxBackoffTimeout v =? 0) eqn:E;
      [discriminate|now apply Z.eqb_neq]. }
  split; [|now repeat split].
  destruct (setDefaults_fields (setDefaults v)) as (G1 & G2 & G3 & G4).
  apply Options_eq.
  - rewrite G1. now destruct (ShutdownSignal (setDefaults v)).
  - rewrite G2. apply Z.eqb_neq in N2. now rewrite N2.
  - rewrite G3. apply Z.eqb_neq in N3. now rewrite N3.
  - rewrite G4. apply Z.eqb_neq in N4. now rewrite N4.
Qed.

(** The defaults are applied field by field before the check, so setting
    one backoff bound alone can be rejected: a minimum above one minute
    with no maximum, or a maximum below one second with no minimum.  The
    call then returns the configuration error and starts nothing. *)
Theorem lone_backoff_bound_can_be_rejected w h next ctx envKey opts ins v0 :
  entry_options h opts = Some v0 ->
  (MaxBackoffTimeout v0 = 0 /\ Minute < MinBackoffTimeout v0)
  \/ (MinBackoffTimeout v0 = 0 /\ MaxBackoffTimeout v0 <> 0
      /\ MaxBackoffTimeout v0 < Second) ->
  exists r,
    SelfMonitor w h next ctx envKey opts ins = Some r
    /\ res_pc r = Returned (Some (errorString next check_message))
    /\ res_trace r = [].
Proof.
  intros Hv Hcase.
  apply SelfMonitor_early with (v0 := v0); [exact Hv|].
  apply checks_bad_options.
  destruct (setDefaults_fields v0) as (_ & _ & Hmin & Hmax).
  rewrite Hmin, Hmax.
  destruct Hcase as [[Hx Hn]|(Hn & Hx0 & Hx)].
  - rewrite Hx. cbn [Z.eqb].
    destruct (MinBackoffTimeout v0 =? 0) eqn:E; [|exact Hn].
    apply Z.eqb_eq in E. rewrite E in Hn. unfold Minute, Second in Hn. lia.
  - rewrite Hn. cbn [Z.eqb].
    destruct (MaxBackoffTimeout v0 =? 0) eqn:E; [|exact Hx].
    apply Z.eqb_eq in E. contradiction.
Qed.

Lemma lone_backoff_bound_can_be_rejected_witness :
  let v0 := mkOptions None 0 (2 * Minute) 0 in
  let h : heap := {[ 1%nat := v0 ]} in
  entry_options h (Some 1%nat) = Some v0
  /\ ((MaxBackoffTimeout v0 = 0 /\ Minute < MinBackoffTimeout v0)
      \/ (MinBackoffTimeout v0 = 0 /\ MaxBackoffTimeout v0 <> 0
          /\ MaxBackoffTimeout v0 < Second))
  /\ exists r,
      SelfMonitor sample.w h 0 None "K" (Some 1%nat) [Sched true] = Some r
      /\ res_pc r = Returned (Some (errorString 0 check_message))
      /\ res_trace r = [].
Proof.
  intros v0 h.
  assert (H1 : entry_options h (Some 1%nat) = Some v0) by reflexivity.
  assert (H2 : (MaxBackoffTimeout v0 = 0 /\ Minute < MinBackoffTimeout v0)
               \/ (MinBackoffTimeout v0 = 0 /\ MaxBackoffTimeout v0 <> 0
                   /\ MaxBackoffTimeout v0 < Second)).
  { left. split; [reflexivity|]. vm_compute. reflexivity. }
  split; [exact H1|]. split; [exact H2|].
  exact (lone_backoff_bound_can_be_rejected sample.w h 0 None "K"
           (Some 1%nat) [Sched true] v0 H1 H2).
Defined.

(** Where the doubled minimum still fits in an int64 and the options are
    consistent with a positive minimum, the delay at index [i] is
    min(minBackoff * 2^i, maxBackoff), and lies between the two bounds. *)
Theorem backoff_within_bounds v i :
  0 <= i ->
  0 < MinBackoffTimeout v <= MaxBackoffTimeout v ->
  MinBackoffTimeout v * 2 ^ i < 2 ^ 63 ->
  exists d,
    backoff v i = Some d
    /\ d = Z.min (MinBackoffTimeout v * 2 ^ i) (MaxBackoffTimeout v)
    /\ MinBackoffTimeout v <= d <= MaxBackoffTimeout v.
Proof.
  intros Hi [Hpos Hle] Hfit.
  assert (Hp : 0 < 2 ^ i) by (apply Z.pow_pos_nonneg; lia).
  eexists. split; [apply backoff_exact; [exact Hi|nia]|].
  split; [reflexivity|]. split; [|apply Z.le_min_r].
  apply Z.min_glb; [nia|exact Hle].
Qed.

Lemma backoff_within_bounds_witness :
  0 <= 5
  /\ 0 < MinBackoffTimeout sample.defaults <= MaxBackoffTimeout sample.defaults
  /\ MinBackoffTimeout sample.defaults * 2 ^ 5 < 2 ^ 63
  /\ exists d,
      backoff sample.defaults 5 = Some d
      /\ d = Z.min (MinBackoffTimeout sample.defaults * 2 ^ 5)
               (MaxBackoffTimeout sample.defaults)
      /\ MinBackoffTimeout sample.defaults <= d
         <= MaxBackoffTimeout sample.defaults.
Proof.
  assert (H1 : 0 <= 5) by lia.
  assert (H2 : 0 < MinBackoffTimeout sample.defaults
               <= MaxBackoffTimeout sample.defaults)
    by (vm_compute; split; [reflexivity|discriminate]).
  assert (H3 : MinBackoffTimeout sample.defaults * 2 ^ 5 < 2 ^ 63)
    by (vm_compute; reflexivity).
  split; [exact H1|]. split; [exact H2|]. split; [exact H3|].
  exact (backoff_within_bounds sample.defaults 5 H1 H2 H3).
Defined.

(** ** Daemonize *)

Lemma length_nonzero_iff (s : string) :
  (String.length s =? 0)%nat = false <-> s <> "".
Proof. destruct s; cbn; split; congruence. Qed.

(** The role of a call.  With an empty envKey or envValue nothing is done
    and os.ErrInvalid is returned, with [foreground] true.  [foreground]
    is false exactly in the child role (both arguments non-empty and envKey
    set in the environment); there the call makes the process a session
    leader and, if that works, discards the log output.  A process is
    started in the parent role only. *)
Theorem Daemonize_roles sys next ctx envKey envValue check :
  let res := daemon.Daemonize sys next ctx envKey envValue check in
  let child := envKey <> "" /\ envValue <> ""
               /\ Getenv (daemon.sys_world sys) envKey <> "" in
  (envKey = "" \/ envValue = "" -> res = ([], (true, Some ErrInvalid)))
  /\ (fst (snd res) = false <-> child)
  /\ (child ->
      (daemon.sys_setsid sys = None
       /\ res = ([daemon.Setsid; daemon.LogDiscard], (false, None)))
      \/ (exists id text,
            daemon.sys_setsid sys = Some (id, text)
            /\ res = ([daemon.Setsid],
                      (false, Some (Errorf_w "could not set session id: "
                                      (Foreign id text))))))
  /\ (forall p a t, In (daemon.StartProcess p a t) (fst res) ->
        envKey <> "" /\ envValue <> ""
        /\ Getenv (daemon.sys_world sys) envKey = "").
Proof.
  cbn zeta. unfold daemon.Daemonize.
  destruct (String.length envKey =? 0)%nat eqn:E1.
  { apply length_zero_iff in E1. subst envKey. cbn.
    repeat split; try discriminate; try tauto; intros; tauto. }
  apply length_nonzero_iff in E1.
  destruct (String.length envValue =? 0)%nat eqn:E2.
  { apply length_zero_iff in E2. subst envValue. cbn.
    repeat split; try discriminate; try tauto; intros; tauto. }
  apply length_nonzero_iff in E2. cbn [orb].
  destruct (String.length (Getenv (daemon.sys_world sys) envKey) =? 0)%nat
    eqn:E3.
  - apply length_zero_iff in E3.
    destruct (daemon.daemonizeParent sys next ctx envKey envValue check)
      as [calls err]. cbn.
    split; [intros [H|H]; contradiction|].
    split; [split; [discriminate|intros (_ & _ & H); contradiction]|].
    split; [intros (_ & _ & H); contradiction|].
    intros p a t _. now repeat split.
  - apply length_nonzero_iff in E3. unfold daemon.daemonizeChild.
    destruct (daemon.sys_setsid sys) as [[id text]|]; cbn.
    + split; [intros [H|H]; contradiction|].
      split; [split; [now repeat split|reflexivity]|].
      split; [intros _; right; now exists id, text|].
      intros p a t [H|[]]. discriminate H.
    + split; [intros [H|H]; contradiction|].
      split; [split; [now repeat split|reflexivity]|].
      split; [intros _; left; now split|].
      intros p a t [H|[H|[]]]; discriminate H.
Qed.

Lemma Daemonize_roles_witness :
  let sys := daemon.mkSystem sample.w_child None None None None in
  let res := daemon.Daemonize sys 0 None "SELFMONITOR_ENVKEY" "x" None in
  ("SELFMONITOR_ENVKEY" <> "" /\ "x" <> ""
   /\ Getenv (daemon.sys_world sys) "SELFMONITOR_ENVKEY" <> "")
  /\ fst (snd res) = false.
Proof.
  intros sys res.
  assert (H : "SELFMONITOR_ENVKEY" <> "" /\ "x" <> ""
              /\ Getenv (daemon.sys_world sys) "SELFMONITOR_ENVKEY" <> "")
    by (repeat split; vm_compute; discriminate).
  split; [exact H|].
  exact (proj2 (proj1 (proj2 (Daemonize_roles sys 0 None "SELFMONITOR_ENVKEY"
                                "x" None))) H).
Defined.

Lemma Daemonize_parent sys next ctx envKey envValue check :
  envKey <> "" -> envValue <> "" ->
  Getenv (daemon.sys_world sys) envKey = "" ->
  daemon.Daemonize sys next ctx envKey envValue check
  = (fst (daemon.daemonizeParent sys next ctx envKey envValue check),
     (true, snd (daemon.daemonizeParent sys next ctx envKey envValue check))).
Proof.
  intros Hk Hv Hg. unfold daemon.Daemonize.
  apply length_nonzero_iff in Hk. apply length_nonzero_iff in Hv.
  rewrite Hk, Hv, Hg. cbn.
  now destruct (daemon.daemonizeParent sys next ctx envKey envValue check).
Qed.

(** In the parent role, a failure to find the executable, to open
    /dev/null or to start the process is returned at once, wrapped so that
    [errors.Is] still finds the cause; the readiness callback is not
    called, nothing is killed, and in the first two cases nothing was
    started. *)
Theorem Daemonize_launch_failures sys next ctx envKey envValue check :
  envKey <> "" -> envValue <> "" ->
  Getenv (daemon.sys_world sys) envKey = "" ->
  let res := daemon.Daemonize sys next ctx envKey envValue check in
  (forall id text,
     Executable (daemon.sys_world sys) 0 = inr (id, text) ->
     fst res = []
     /\ snd res = (true, Some (Errorf_w "failed to lookup binary: "
                                 (Foreign id text))))
  /\ (forall path id text,
        Executable (daemon.sys_world sys) 0 = inl path ->
        daemon.sys_open sys = Some (id, text) ->
        fst res = []
        /\ snd res = (true, Some (Errorf_w "failed to open /dev/null: "
                                    (Foreign id text))))
  /\ (forall path id text,
        Executable (daemon.sys_world sys) 0 = inl path ->
        daemon.sys_open sys = None ->
        daemon.sys_start sys = Some (id, text) ->
        ~ In daemon.Kill (fst res)
        /\ snd res = (true, Some (Errorf_w "failed to start process: "
                                    (Foreign id text))))
  /\ (forall prefix id text,
        Is (Errorf_w prefix (Foreign id text)) (Foreign id text) = true).
Proof.
  intros Hk Hv Hg. cbn zeta. rewrite (Daemonize_parent _ _ _ _ _ _ Hk Hv Hg).
  cbn [fst snd]. unfold daemon.daemonizeParent.
  split; [intros id text ->; now split|].
  split; [intros path id text -> ->; now split|].
  split.
  - intros path id text -> -> ->. cbn. split; [|reflexivity].
    intros [H|[]]. discriminate H.
  - intros prefix id text. unfold Errorf_w.
    change (bool_decide (wrapError (prefix +:+ Error (Foreign id text))
                           (Foreign id text) = Foreign id text)
            || Is (Foreign id text) (Foreign id text) = true).
    rewrite Is_same. apply orb_true_r.
Qed.

Lemma Daemonize_launch_failures_witness :
  let w := World (Env sample.w) (Args sample.w)
             (fun _ => inr (2%nat, "readlink: permission denied"))
             (ServerURL sample.w) in
  let sys := daemon.mkSystem w None None None None in
  "DAEMONIZE_ENVKEY" <> "" /\ "u" <> ""
  /\ Getenv (daemon.sys_world sys) "DAEMONIZE_ENVKEY" = ""
  /\ Executable (daemon.sys_world sys) 0
     = inr (2%nat, "readlink: permission denied")
  /\ fst (daemon.Daemonize sys 0 None "DAEMONIZE_ENVKEY" "u" None) = []
  /\ snd (daemon.Daemonize sys 0 None "DAEMONIZE_ENVKEY" "u" None)
     = (true, Some (Errorf_w "failed to lookup binary: "
                      (Foreign 2 "readlink: permission denied"))).
Proof.
  intros w sys.
  assert (H1 : "DAEMONIZE_ENVKEY" <> "") by discriminate.
  assert (H2 : "u" <> "") by discriminate.
  assert (H3 : Getenv (daemon.sys_world sys) "DAEMONIZE_ENVKEY" = "")
    by reflexivity.
  assert (H4 : Executable (daemon.sys_world sys) 0
               = inr (2%nat, "readlink: permission denied")) by reflexivity.
  split; [exact H1|]. split; [exact H2|]. split; [exact H3|].
  split; [exact H4|].
  exact (proj1 (Daemonize_launch_failures sys 0 None "DAEMONIZE_ENVKEY" "u"
                  None H1 H2 H3) 2%nat "readlink: permission denied" H4).
Defined.

(** In the parent role, once the process is started: without a callback
    the call returns nil at once and kills nothing.  With a callback, the
    call returns what the callback returns, and kills the process exactly
    when that is an error.  The context the callback sees is done
    with the cause of the caller's context if that one is done already,
    else with the cause recorded for the end of the process if it has
    ended, and is live otherwise. *)
Theorem Daemonize_follows_the_callback sys next ctx envKey envValue check path :
  envKey <> "" -> envValue <> "" ->
  Getenv (daemon.sys_world sys) envKey = "" ->
  Executable (daemon.sys_world sys) 0 = inl path ->
  daemon.sys_open sys = None ->
  daemon.sys_start sys = None ->
  let res := daemon.Daemonize sys next ctx envKey envValue check in
  let c := match ctx, daemon.sys_wait sys with
           | Some e, _ => Some e
           | None, Some r => Some (fst (daemon.wait_cause r next))
           | None, None => None
           end in
  fst (snd res) = true
  /\ (check = None -> snd (snd res) = None /\ ~ In daemon.Kill (fst res))
  /\ (forall f, check = Some f ->
        snd (snd res) = f c
        /\ (In daemon.Kill (fst res) <-> f c <> None)).
Proof.
  intros Hk Hv Hg Hexe Hopen Hstart. cbn zeta.
  rewrite (Daemonize_parent _ _ _ _ _ _ Hk Hv Hg). cbn [fst snd].
  unfold daemon.daemonizeParent. rewrite Hexe, Hopen, Hstart.
  split; [reflexivity|]. split.
  - intros ->. cbn. split; [reflexivity|]. intros [H|[]]. discriminate H.
  - intros f ->.
    assert (Hc : match daemon.sys_wait sys with
                 | Some r => cancel (Some (fst (daemon.wait_cause r next)))
                               (WithCancelCause ctx)
                 | None => WithCancelCause ctx
                 end
                 = match ctx, daemon.sys_wait sys with
                   | Some e, _ => Some e
                   | None, Some r => Some (fst (daemon.wait_cause r next))
                   | None, None => None
                   end).
    { destruct ctx, (daemon.sys_wait sys); reflexivity. }
    rewrite Hc.
    destruct (f _) as [err|]; cbn.
    + split; [reflexivity|]. split; [discriminate|]. intros _. right. now left.
    + split; [reflexivity|]. split; [|congruence].
      intros [H|[]]. discriminate H.
Qed.

Lemma Daemonize_follows_the_callback_witness :
  let sys := daemon.mkSystem sample.w None None
               (Some (daemon.Exited 3)) None in
  let f : daemon.ReadyFunc := fun c => c in
  "DAEMONIZE_ENVKEY" <> "" /\ "u" <> ""
  /\ Getenv (daemon.sys_world sys) "DAEMONIZE_ENVKEY" = ""
  /\ snd (snd (daemon.Daemonize sys 4 None "DAEMONIZE_ENVKEY" "u" (Some f)))
     = f (Some (fst (daemon.wait_cause (daemon.Exited 3) 4)))
  /\ (In daemon.Kill
        (fst (daemon.Daemonize sys 4 None "DAEMONIZE_ENVKEY" "u" (Some f)))
      <-> f (Some (fst (daemon.wait_cause (daemon.Exited 3) 4))) <> None).
Proof.
  intros sys f.
  assert (H1 : "DAEMONIZE_ENVKEY" <> "") by discriminate.
  assert (H2 : "u" <> "") by discriminate.
  assert (H3 : Getenv (daemon.sys_world sys) "DAEMONIZE_ENVKEY" = "")
    by reflexivity.
  split; [exact H1|]. split; [exact H2|]. split; [exact H3|].
  exact (proj2 (proj2 (Daemonize_follows_the_callback sys 4 None
                         "DAEMONIZE_ENVKEY" "u" (Some f) "/usr/bin/prog"
                         H1 H2 H3 eq_refl eq_refl eq_refl)) f eq_refl).
Defined.

Lemma daemonizeParent_callback sys next ctx envKey envValue f path :
  Executable (daemon.sys_world sys) 0 = inl path ->
  daemon.sys_open sys = None ->
  daemon.sys_start sys = None ->
  exists start,
    daemon.daemonizeParent sys next ctx envKey envValue (Some f)
    = (match f (match ctx, daemon.sys_wait sys with
                | Some e, _ => Some e
                | None, Some r => Some (fst (daemon.wait_cause r next))
                | None, None => None
                end) with
       | Some _ => [start; daemon.Kill]
       | None => [start]
       end,
       f (match ctx, daemon.sys_wait sys with
          | Some e, _ => Some e
          | None, Some r => Some (fst (daemon.wait_cause r next))
          | None, None => None
          end))
    /\ exists argv attr, start = daemon.StartProcess path argv attr.
Proof.
  intros Hexe Hopen Hstart. unfold daemon.daemonizeParent.
  rewrite Hexe, Hopen, Hstart.
  exists (daemon.StartProcess path (Args (daemon.sys_world sys))
            (daemon.mkProcAttr "/"
               [ "PATH=" +:+ Getenv (daemon.sys_world sys) "PATH";
                 "USER=" +:+ Getenv (daemon.sys_world sys) "USER";
                 "HOME=" +:+ Getenv (daemon.sys_world sys) "HOME";
                 envKey +:+ "=" +:+ envValue ]
               [ "/dev/null"; "/dev/null"; "/dev/null" ])).
  split; [|eexists; eexists; reflexivity].
  destruct ctx as [e|], (daemon.sys_wait sys) as [r|];
    unfold WithCancelCause, cancel; cbn [default from_option id];
    match goal with |- context [f ?c] => destruct (f c) end; reflexivity.
Qed.

Lemma wait_cause_not_sentinel r next p s :
  (p < next)%nat -> Is (fst (daemon.wait_cause r next)) (errorString p s) = false.
Proof.
  intros Hlt. destruct r as [id text|code]; cbn [daemon.wait_cause].
  - reflexivity.
  - destruct (code =? 0); [|destruct (code =? -1)]; cbn [New fst];
      apply Is_errorString_ne; lia.
Qed.

(** [Daemonize] with the waiter of a readiness endpoint as its callback,
    as in the example program: when the background process ends before any
    report has reached the endpoint, the foreground call calls Kill on the
    process and returns the cause recorded for the end of the process,
    whose message tells how it ended. *)
Theorem background_exit_is_returned sys next ctx envKey envValue f path ep pick p r :
  envKey <> "" -> envValue <> "" ->
  Getenv (daemon.sys_world sys) envKey = "" ->
  Executable (daemon.sys_world sys) 0 = inl path ->
  daemon.sys_open sys = None ->
  daemon.sys_start sys = None ->
  ctx = None ->
  daemon.sys_wait sys = Some r ->
  rctx ep = None ->
  errReady ep = errorString p "ready" -> (p < next)%nat ->
  daemon.waits_on ep pick f ->
  let res := daemon.Daemonize sys next ctx envKey envValue (Some f) in
  snd res = (true, Some (fst (daemon.wait_cause r next)))
  /\ In daemon.Kill (fst res)
  /\ Error (fst (daemon.wait_cause r next))
     = match r with
       | daemon.WaitFailed _ text => "could not wait on child process: " +:+ text
       | daemon.Exited code =>
           if code =? 0 then "child exited successfully with exit code 0"
           else if code =? -1 then "child is terminated by a signal"
           else "child exited with exit code " +:+ daemon.decimal code
       end.
Proof.
  intros Hk Hv Hg Hexe Hopen Hstart -> Hwait Hrc Hready Hlt Hf. cbn zeta.
  rewrite (Daemonize_parent _ _ _ _ _ _ Hk Hv Hg). cbn [fst snd].
  destruct (daemonizeParent_callback sys next None envKey envValue f path
              Hexe Hopen Hstart) as (start & -> & _).
  rewrite Hwait.
  assert (Hfc : f (Some (fst (daemon.wait_cause r next)))
                = Some (fst (daemon.wait_cause r next))).
  { eapply Hf. unfold receiver. rewrite Hrc. cbn [select2].
    rewrite Hready, wait_cause_not_sentinel by exact Hlt. reflexivity. }
  rewrite Hfc. cbn [fst snd].
  split; [reflexivity|]. split; [right; now left|].
  destruct r as [id text|code]; cbn [daemon.wait_cause]; [reflexivity|].
  destruct (code =? 0); [|destruct (code =? -1)]; reflexivity.
Qed.

Lemma background_exit_is_returned_witness :
  let sys := daemon.mkSystem sample.w None None (Some (daemon.Exited 0)) None in
  let ep := Endpoint (errorString 0 "ready") None in
  let f : daemon.ReadyFunc :=
    fun c => match receiver ep c true with
             | Some (_, r) => r
             | None => None
             end in
  daemon.waits_on ep true f
  /\ snd (daemon.Daemonize sys 1 None "DAEMONIZE_ENVKEY" "u" (Some f))
     = (true, Some (errorString 1 "child exited successfully with exit code 0"))
  /\ In daemon.Kill
       (fst (daemon.Daemonize sys 1 None "DAEMONIZE_ENVKEY" "u" (Some f))).
Proof.
  intros sys ep f.
  assert (Hf : daemon.waits_on ep true f).
  { intros c ep' r Hr. unfold f. now rewrite Hr. }
  split; [exact Hf|].
  assert (H1 : "DAEMONIZE_ENVKEY" <> "") by discriminate.
  assert (H2 : "u" <> "") by discriminate.
  assert (H3 : (0 < 1)%nat) by lia.
  destruct (background_exit_is_returned sys 1 None "DAEMONIZE_ENVKEY" "u" f
              "/usr/bin/prog" ep true 0%nat (daemon.Exited 0)
              H1 H2 eq_refl eq_refl eq_refl eq_refl eq_refl eq_refl eq_refl
              eq_refl H3 Hf) as (Ha & Hb & _).
  split; [exact Ha|exact Hb].
Defined.

(** With the same callback, once a ready report has resolved the endpoint
    and while the background process runs, the foreground call returns nil
    and leaves the process alone. *)
Theorem background_ready_is_success sys next ctx envKey envValue f path ep pick :
  envKey <> "" -> envValue <> "" ->
  Getenv (daemon.sys_world sys) envKey = "" ->
  Executable (daemon.sys_world sys) 0 = inl path ->
  daemon.sys_open sys = None ->
  daemon.sys_start sys = None ->
  ctx = None ->
  daemon.sys_wait sys = None ->
  rctx ep = Some (errReady ep) ->
  daemon.waits_on ep pick f ->
  let res := daemon.Daemonize sys next ctx envKey envValue (Some f) in
  snd res = (true, None) /\ ~ In daemon.Kill (fst res).
Proof.
  intros Hk Hv Hg Hexe Hopen Hstart -> Hwait Hrc Hf. cbn zeta.
  rewrite (Daemonize_parent _ _ _ _ _ _ Hk Hv Hg). cbn [fst snd].
  destruct (daemonizeParent_callback sys next None envKey envValue f path
              Hexe Hopen Hstart) as (start & -> & argv & attr & ->).
  rewrite Hwait.
  assert (Hfc : f None = None).
  { eapply Hf. unfold receiver. rewrite Hrc. cbn [select2].
    rewrite Is_same. reflexivity. }
  rewrite Hfc. cbn [fst snd]. split; [reflexivity|].
  intros [H|[]]. discriminate H.
Qed.

Lemma background_ready_is_success_witness :
  let sys := daemon.mkSystem sample.w None None None None in
  let ep := Endpoint (errorString 0 "ready") (Some (errorString 0 "ready")) in
  let f : daemon.ReadyFunc :=
    fun c => match receiver ep c false with
             | Some (_, r) => r
             | None => None
             end in
  daemon.waits_on ep false f
  /\ rctx ep = Some (errReady ep)
  /\ snd (daemon.Daemonize sys 1 None "DAEMONIZE_ENVKEY" "u" (Some f))
     = (true, None)
  /\ ~ In daemon.Kill
         (fst (daemon.Daemonize sys 1 None "DAEMONIZE_ENVKEY" "u" (Some f))).
Proof.
  intros sys ep f.
  assert (Hf : daemon.waits_on ep false f).
  { intros c ep' r Hr. unfold f. now rewrite Hr. }
  assert (Hrc : rctx ep = Some (errReady ep)) by reflexivity.
  split; [exact Hf|]. split; [exact Hrc|].
  assert (H1 : "DAEMONIZE_ENVKEY" <> "") by discriminate.
  assert (H2 : "u" <> "") by discriminate.
  exact (background_ready_is_success sys 1 None "DAEMONIZE_ENVKEY" "u" f
           "/usr/bin/prog" ep false H1 H2 eq_refl eq_refl eq_refl eq_refl
           eq_refl eq_refl Hrc Hf).
Defined.

Lemma split_entry_append k v :
  daemon.has_equals k = false ->
  daemon.split_entry (k +:+ "=" +:+ v) = Some (k, v).
Proof.
  induction k as [|c k IH]; intros H.
  - reflexivity.
  - change (String c k +:+ "=" +:+ v) with (String c (k +:+ "=" +:+ v)).
    cbn [daemon.split_entry daemon.has_equals] in *.
    apply orb_false_iff in H as [Hc Hk]. rewrite Hc, (IH Hk). reflexivity.
Qed.

(** The environment block that [Daemonize] builds in the parent role makes
    the started process a child: if envKey contains no '=' and is none of
    PATH, USER and HOME, that process reads envValue for envKey, so its own
    call of [Daemonize] (with any non-empty value) returns [foreground]
    false and starts no process in its turn. *)
Theorem started_process_takes_the_child_role
    sys next ctx envKey envValue check path argv attr rest
    sys' next' ctx' envValue' check' :
  envKey <> "" -> envValue <> "" ->
  daemon.has_equals envKey = false ->
  envKey <> "PATH" -> envKey <> "USER" -> envKey <> "HOME" ->
  fst (daemon.Daemonize sys next ctx envKey envValue check)
    = daemon.StartProcess path argv attr :: rest ->
  daemon.sys_world sys' = daemon.spawned_world (daemon.sys_world sys) argv attr ->
  envValue' <> "" ->
  Getenv (daemon.sys_world sys') envKey = envValue
  /\ fst (snd (daemon.Daemonize sys' next' ctx' envKey envValue' check'))
     = false
  /\ forall p a t,
       ~ In (daemon.StartProcess p a t)
            (fst (daemon.Daemonize sys' next' ctx' envKey envValue' check')).
Proof.
  intros Hk Hv Heq Hpath Huser Hhome Hcalls Hw Hv'.
  assert (Hattr : daemon.attr_Env attr
                  = [ "PATH=" +:+ Getenv (daemon.sys_world sys) "PATH";
                      "USER=" +:+ Getenv (daemon.sys_world sys) "USER";
                      "HOME=" +:+ Getenv (daemon.sys_world sys) "HOME";
                      envKey +:+ "=" +:+ envValue ]).
  { revert Hcalls. unfold daemon.Daemonize.
    destruct ((String.length envKey =? 0)%nat || (String.length envValue =? 0)%nat);
      [discriminate|].
    destruct (String.length (Getenv (daemon.sys_world sys) envKey) =? 0)%nat.
    - unfold daemon.daemonizeParent.
      destruct (Executable (daemon.sys_world sys) 0) as [bin|[id text]];
        [|discriminate].
      destruct (daemon.sys_open sys) as [[id text]|]; [discriminate|].
      destruct (daemon.sys_start sys) as [[id text]|];
        [cbn; intros [= _ _ <-]; reflexivity|].
      destruct check as [f|]; [|cbn; intros [= _ _ <-]; reflexivity].
      match goal with |- context [f ?c] => destruct (f c) end;
        cbn; intros [= _ _ <-]; reflexivity.
    - unfold daemon.daemonizeChild.
      destruct (daemon.sys_setsid sys) as [[id text]|]; discriminate. }
  assert (Hget : Getenv (daemon.sys_world sys') envKey = envValue).
  { rewrite Hw. unfold Getenv, daemon.spawned_world. cbn [Env].
    rewrite bool_decide_eq_false_2 by exact Hk.
    rewrite Hattr. unfold daemon.parse_environ.
    change ("PATH=" +:+ ?x) with ("PATH" +:+ "=" +:+ x).
    change ("USER=" +:+ ?x) with ("USER" +:+ "=" +:+ x).
    change ("HOME=" +:+ ?x) with ("HOME" +:+ "=" +:+ x).
    cbn [omap list_omap].
    rewrite !split_entry_append by (reflexivity || exact Heq).
    cbn [lookup_env].
    rewrite !bool_decide_eq_false_2 by congruence.
    now rewrite bool_decide_eq_true_2. }
  split; [exact Hget|].
  unfold daemon.Daemonize.
  apply length_nonzero_iff in Hk. apply length_nonzero_iff in Hv'.
  rewrite Hk, Hv', Hget. cbn [orb].
  apply length_nonzero_iff in Hv. rewrite Hv.
  unfold daemon.daemonizeChild.
  destruct (daemon.sys_setsid sys') as [[id text]|]; cbn.
  - split; [reflexivity|]. intros p a t [H|[]]. discriminate H.
  - split; [reflexivity|]. intros p a t [H|[H|[]]]; discriminate H.
Qed.

Lemma started_process_takes_the_child_role_witness :
  let sys := daemon.mkSystem sample.w None None None None in
  let attr := daemon.mkProcAttr "/"
                [ "PATH=/bin"; "USER=svc"; "HOME=/home/svc";
                  "DAEMONIZE_ENVKEY=http://127.0.0.1:9" ]
                [ "/dev/null"; "/dev/null"; "/dev/null" ] in
  let argv := ["prog"; "-self-monitor"] in
  let sys' := daemon.mkSystem (daemon.spawned_world sample.w argv attr)
                None None None None in
  daemon.has_equals "DAEMONIZE_ENVKEY" = false
  /\ fst (daemon.Daemonize sys 0 None "DAEMONIZE_ENVKEY"
            "http://127.0.0.1:9" None)
     = [daemon.StartProcess "/usr/bin/prog" argv attr]
  /\ Getenv (daemon.sys_world sys') "DAEMONIZE_ENVKEY" = "http://127.0.0.1:9"
  /\ fst (snd (daemon.Daemonize sys' 0 None "DAEMONIZE_ENVKEY" "again" None))
     = false.
Proof.
  intros sys attr argv sys'.
  assert (H0 : daemon.has_equals "DAEMONIZE_ENVKEY" = false) by reflexivity.
  assert (H1 : fst (daemon.Daemonize sys 0 None "DAEMONIZE_ENVKEY"
                      "http://127.0.0.1:9" None)
               = [daemon.StartProcess "/usr/bin/prog" argv attr])
    by reflexivity.
  split; [exact H0|]. split; [exact H1|].
  assert (Ha : "DAEMONIZE_ENVKEY" <> "") by discriminate.
  assert (Hb : "http://127.0.0.1:9" <> "") by discriminate.
  assert (Hc : "DAEMONIZE_ENVKEY" <> "PATH") by discriminate.
  assert (Hd : "DAEMONIZE_ENVKEY" <> "USER") by discriminate.
  assert (He : "DAEMONIZE_ENVKEY" <> "HOME") by discriminate.
  assert (Hf : "again" <> "") by discriminate.
  destruct (started_process_takes_the_child_role sys 0 None "DAEMONIZE_ENVKEY"
              "http://127.0.0.1:9" None "/usr/bin/prog" argv attr []
              sys' 0 None "again" None Ha Hb H0 Hc Hd He H1 eq_refl Hf)
    as (G1 & G2 & _).
  split; [exact G1|exact G2].
Defined.

(** Without the side conditions the role is not passed on: with envKey
    PATH and no PATH in the caller's environment, the started process
    reads the empty value of the first PATH entry and is a parent again. *)
Example child_role_needs_a_key_of_its_own :
  let w := World [] ["prog"] (fun _ => inl "/usr/bin/prog") (fun _ => "") in
  let sys := daemon.mkSystem w None None None None in
  exists argv attr,
    fst (daemon.Daemonize sys 0 None "PATH" "v" None)
      = [daemon.StartProcess "/usr/bin/prog" argv attr]
    /\ Getenv (daemon.spawned_world w argv attr) "PATH" = "".
Proof. eexists. eexists. split; reflexivity. Qed.
